(** * Study-assistant backend: chunker, model fallback client, answer assembly

    A shallow embedding of [backend/main.py].  Python values are modelled as
    follows: [int] is [Z], [str] is [string], a raised [Exception(msg)] is the
    [Raise msg] arm of a result type, and every outbound HTTP call is a
    transition of an abstract [World], recorded in a log of events so that
    statements about which requests were issued can be made.

    A [string] holds the characters of a Python [str] in order, one [ascii]
    per character, the [ascii] being the character's code point.  The texts
    of the model are therefore the ones whose code points lie below 256, and
    on these [len], slicing, [lower], [isspace] and [strip] are the ones of
    Python.  The only characters above 255 in the program's own literals are
    the two of the warning sign that opens an error answer; they stand in the
    model as the six bytes of their UTF-8 form. *)

From Stdlib Require Import ZArith List Bool Lia Arith Finite.
From Stdlib Require Import Ascii String.
From Stdlib Require Import DecimalString DecimalNat DecimalZ.
From Equations Require Import Equations.
Import ListNotations.

Local Open Scope string_scope.
Local Open Scope Z_scope.

(** ** Python strings *)

Module PyStr.

(** [len(s)] *)
Definition len (s : string) : Z := Z.of_nat (String.length s).

(** Truth value of a string: [bool(s)], false exactly for the empty one. *)
Definition truthy (s : string) : bool :=
  match s with
  | EmptyString => false
  | String _ _ => true
  end.

(** Index adjustment of a slice bound, as CPython's [PySlice_AdjustIndices]
    does for a step of 1: a negative bound counts from the end, and the
    result is clamped to [0 .. n]. *)
Definition adjust (i n : Z) : Z :=
  if i <? 0 then Z.max (i + n) 0 else Z.min i n.

(** [s[lo:hi]] *)
Definition slice (s : string) (lo hi : Z) : string :=
  let lo' := adjust lo (len s) in
  let hi' := adjust hi (len s) in
  if lo' <? hi'
  then substring (Z.to_nat lo') (Z.to_nat (hi' - lo')) s
  else "".

(** [s[:n]] *)
Definition take (s : string) (n : Z) : string := slice s 0 n.

(** [s[n:]] *)
Definition drop (s : string) (n : Z) : string :=
  let lo' := adjust n (len s) in
  substring (Z.to_nat lo') (Z.to_nat (len s - lo')) s.

(** The line feed character, written [\n] in the source. *)
Definition nl : string := String (ascii_of_nat 10) "".

(** [sep.join(parts)] *)
Definition join (sep : string) (parts : list string) : string :=
  String.concat sep parts.

(** [c.lower()] for one character.  Below 256 the characters with a lower
    case of their own are the letters [A-Z] (65-90) and the accented capitals
    192-214 and 216-222; each has its lower case 32 places further on.  The
    multiplication sign 215 and all other characters are kept. *)
Definition lower_char (c : ascii) : ascii :=
  let n := nat_of_ascii c in
  if ((65 <=? n)%nat && (n <=? 90)%nat)
     || ((192 <=? n)%nat && (n <=? 214)%nat)
     || ((216 <=? n)%nat && (n <=? 222)%nat)
  then ascii_of_nat (n + 32) else c.

(** [s.lower()] *)
Fixpoint lower (s : string) : string :=
  match s with
  | EmptyString => EmptyString
  | String c s' => String (lower_char c) (lower s')
  end.

(** [needle in hay] *)
Fixpoint contains (needle hay : string) : bool :=
  prefix needle hay ||
  match hay with
  | EmptyString => false
  | String _ hay' => contains needle hay'
  end.

(** [c.isspace()]: tab, line feed, vertical tab, form feed and carriage
    return (9-13), the four separators 28-31, space (32), next line (133) and
    no-break space (160).  These are all the characters below 256 that Python
    counts as whitespace, and the ones [strip] removes. *)
Definition isspace (c : ascii) : bool :=
  let n := nat_of_ascii c in
  ((9 <=? n)%nat && (n <=? 13)%nat) || ((28 <=? n)%nat && (n <=? 32)%nat)
  || (n =? 133)%nat || (n =? 160)%nat.

(** [s.lstrip()] *)
Fixpoint lstrip (s : string) : string :=
  match s with
  | EmptyString => EmptyString
  | String c s' => if isspace c then lstrip s' else s
  end.

(** [s[::-1]], used to strip from the right. *)
Fixpoint rev (s : string) : string :=
  match s with
  | EmptyString => EmptyString
  | String c s' => rev s' ++ String c EmptyString
  end.

(** [s.strip()] *)
Definition strip (s : string) : string := rev (lstrip (rev (lstrip s))).

(** [all(p(c) for c in s)] *)
Fixpoint all_chars (p : ascii -> bool) (s : string) : bool :=
  match s with
  | EmptyString => true
  | String c s' => p c && all_chars p s'
  end.

(** The characters [str] of an integer is made of: a decimal digit or the
    minus sign. *)
Definition numeral_char (c : ascii) : bool :=
  let n := nat_of_ascii c in
  ((48 <=? n)%nat && (n <=? 57)%nat) || (n =? 45)%nat.

(** [str(n)] for an [int]. *)
Definition of_Z (n : Z) : string := NilZero.string_of_int (Z.to_int n).

(** [str(n)] for a non-negative index such as the ones [range] yields. *)
Definition of_nat (n : nat) : string := NilZero.string_of_uint (Nat.to_uint n).

End PyStr.

(** ** The chunker *)

(** The amount by which the window start advances in one iteration:
    [max(chunk_size - overlap, 1)]. *)
Definition advance (chunk_size overlap : Z) : Z :=
  Z.max (chunk_size - overlap) 1.

(** The [while start < len(text)] loop of [chunk_text], on the state
    [(start, chunks)].  Every iteration moves [start] forward by at least one
    character, so the number of characters left of [start] decreases. *)
Equations? chunk_loop (text : string) (chunk_size overlap : Z)
          (start : Z) (chunks : list string) : list string
  by wf (Z.to_nat (PyStr.len text - start)) lt :=
  chunk_loop text chunk_size overlap start chunks
    with Z_lt_dec start (PyStr.len text) => {
    | left _ :=
        let end_ := start + chunk_size in
        let chunk := PyStr.slice text start end_ in
        chunk_loop text chunk_size overlap
                   (start + advance chunk_size overlap)
                   (chunks ++ [chunk]);
    | right _ := chunks }.
Proof. unfold advance. lia. Qed.

(** [chunk_text(text, chunk_size, overlap)] *)
Definition chunk_text (text : string) (chunk_size overlap : Z) : list string :=
  if negb (PyStr.truthy text) then []
  else chunk_loop text chunk_size overlap 0 [].

(** The chunks the loop emits when entered at [start] with nothing collected. *)
Definition chunks_from (text : string) (chunk_size overlap : Z) (start : Z)
  : list string :=
  chunk_loop text chunk_size overlap start [].

(** Default parameters of [chunk_text]. *)
Definition default_chunk_size : Z := 1000.
Definition default_overlap : Z := 200.

(** *** Reference sliding window, from the specification's wording *)

(** "Starting at offset 0, emit [text[start:start+chunk_size]]; advance
    [start] by [max(chunk_size - overlap, 1)]; repeat while
    [start < len(text)]." *)
Inductive sliding_window (text : string) (chunk_size overlap : Z)
  : Z -> list string -> Prop :=
| sw_stop : forall start,
    PyStr.len text <= start ->
    sliding_window text chunk_size overlap start []
| sw_emit : forall start rest,
    start < PyStr.len text ->
    sliding_window text chunk_size overlap
                   (start + Z.max (chunk_size - overlap) 1) rest ->
    sliding_window text chunk_size overlap start
                   (PyStr.slice text start (start + chunk_size) :: rest).

(** Offsets of the [k]-th window of the reference: it starts at
    [k * advance] and ends [chunk_size] characters later. *)
Definition window_start (chunk_size overlap : Z) (k : nat) : Z :=
  Z.of_nat k * advance chunk_size overlap.

Definition window_end (chunk_size overlap : Z) (k : nat) : Z :=
  window_start chunk_size overlap k + chunk_size.

Definition window (text : string) (chunk_size overlap : Z) (k : nat) : string :=
  PyStr.slice text (window_start chunk_size overlap k)
              (window_end chunk_size overlap k).

(** Number of window starts [0, a, 2a, ...] below [L]: [ceil(L / a)]. *)
Definition window_count (L a : Z) : nat := Z.to_nat ((L + a - 1) / a).

(** The reference chunk list in closed form. *)
Definition reference_chunks (text : string) (chunk_size overlap : Z)
  : list string :=
  map (window text chunk_size overlap)
      (seq 0 (window_count (PyStr.len text) (advance chunk_size overlap))).

(** The text rebuilt from the part of each chunk that the next chunk does
    not repeat: its first [chunk_size - overlap] characters. *)
Definition nonoverlapping_concat (chunk_size overlap : Z) (chunks : list string)
  : string :=
  String.concat "" (map (fun c => PyStr.take c (chunk_size - overlap)) chunks).

(** The text rebuilt the other way round: the first chunk whole, then every
    later chunk without the [overlap] characters it shares with the one
    before. *)
Definition merge_overlapping (overlap : Z) (chunks : list string) : string :=
  match chunks with
  | [] => ""
  | c :: rest => c ++ String.concat "" (map (fun c => PyStr.drop c overlap) rest)
  end.

(** End offset of the last window [chunk_text] emits. *)
Definition last_window_end (text : string) (chunk_size overlap : Z) : Z :=
  window_end chunk_size overlap
             (pred (List.length (chunk_text text chunk_size overlap))).

(** ** Results and exceptions *)

(** Outcome of a Python call that either returns a value or raises
    [Exception(msg)]; [msg] is what [str(exc)] gives. *)
Inductive result (A : Type) : Type :=
| Ok (a : A)
| Raise (msg : string).
Arguments Ok {A} a.
Arguments Raise {A} msg.

(** ** Configuration *)

Definition DEFAULT_MODEL : string := "llama3.2:1b".

Definition FALLBACK_MODELS : list string :=
  ["llama3.2:1b"; "llama3.2"; "llama3:1b"; "tinyllama"; "phi"].

(** ** The HTTP view of the model server *)

(** A decoded JSON object as the code reads it: [key in data] and
    [str(data[key])] for its fields, and [str(data)] for the whole object. *)
Record JsonObject : Type := {
  fields : list (string * string);
  rendered : string
}.

(** [data.get(key)] on the fields: the first binding of [key]. *)
Fixpoint dict_get {V : Type} (key : string) (d : list (string * V)) : option V :=
  match d with
  | [] => None
  | (k, v) :: d' => if (k =? key)%string then Some v else dict_get key d'
  end.

(** What the code looks at in a [requests.Response]: [status_code],
    [json()] (which raises on a body that is not JSON) and [text]. *)
Record Response : Type := {
  status_code : Z;
  json : result JsonObject;
  text : string
}.

(** Outcome of [requests.post(OLLAMA_GENERATE_URL, ...)], split the way the
    [except] clauses of [query_ollama] split it.  An exception that is both a
    connection error and a timeout (a connect timeout) is caught by the first
    clause, so it counts as [PostConnectionError]. *)
Inductive PostOutcome : Type :=
| PostConnectionError
| PostTimeout
| PostOtherError (msg : string)
| PostResponse (r : Response).

(** The body of [GET /api/tags] after [response.json()]: the value under
    ["models"], when present, is a list of entries, each with or without a
    ["name"]. *)
Record TagsDocument : Type := {
  models : option (list (option string))
}.

(** Outcome of [requests.get(OLLAMA_TAGS_URL, timeout=5)]. *)
Inductive TagsOutcome : Type :=
| TagsError
| TagsResponse (status : Z) (body : result TagsDocument).

(** The model server and the network in front of it: an abstract state and
    the two requests the code sends to it. *)
Record Transport : Type := {
  World : Type;
  post_generate : World -> string -> string -> PostOutcome * World;
  get_tags : World -> TagsOutcome * World
}.

(** One outbound request together with what came back. *)
Inductive Event : Type :=
| EvGenerate (model prompt : string) (outcome : PostOutcome)
| EvTags (outcome : TagsOutcome).

(** Computations that talk to the server: they thread the world and append
    to the log of events, oldest first. *)
Definition Net (T : Transport) (A : Type) : Type :=
  World T * list Event -> A * (World T * list Event).

Definition ret {T : Transport} {A : Type} (a : A) : Net T A :=
  fun env => (a, env).

Definition bind {T : Transport} {A B : Type}
           (m : Net T A) (k : A -> Net T B) : Net T B :=
  fun env => let (a, env') := m env in k a env'.

Notation "x <- m ;; k" := (bind m (fun x => k))
  (at level 61, m at next level, right associativity).

(** [requests.post(OLLAMA_GENERATE_URL, json={model, prompt, stream: False},
    timeout=90)] *)
Definition do_post {T : Transport} (model prompt : string) : Net T PostOutcome :=
  fun env =>
    let (o, w') := post_generate T (fst env) model prompt in
    (o, (w', (snd env ++ [EvGenerate model prompt o])%list)).

(** [requests.get(OLLAMA_TAGS_URL, timeout=5)] *)
Definition do_tags {T : Transport} : Net T TagsOutcome :=
  fun env =>
    let (o, w') := get_tags T (fst env) in
    (o, (w', (snd env ++ [EvTags o])%list)).

(** ** The model invocation client *)

(** [get_available_models()]: the installed model names, or the empty list
    when the request fails, the status is not 200 or the body cannot be
    read. *)
Definition available_of (o : TagsOutcome) : list string :=
  match o with
  | TagsError => []
  | TagsResponse status body =>
      if negb (status =? 200) then []
      else match body with
           | Raise _ => []
           | Ok doc =>
               match models doc with
               | None => []
               | Some ms =>
                   map (fun m => match m with Some n => n | None => "" end) ms
               end
           end
  end.

Definition get_available_models {T : Transport} : Net T (list string) :=
  o <- do_tags ;; ret (available_of o).

(** The test that sends a failed answer down the memory path:
    ["unable to allocate" in msg.lower() or "buffer" in msg.lower()]. *)
Definition is_memory_error (msg : string) : bool :=
  PyStr.contains "unable to allocate" (PyStr.lower msg)
  || PyStr.contains "buffer" (PyStr.lower msg).

(** [models_to_try = [model] + [m for m in fallback_models if m != model]] *)
Definition models_to_try (model : string) (fallback_models : list string)
  : list string :=
  ([model] ++ filter (fun m => negb (m =? model)%string) fallback_models)%list.

(** How the [try] block of one iteration ends. *)
Inductive TryExit : Type :=
| ExitReturn (answer : string)
| ExitContinue (last_error : option string)
| ExitConnectionError
| ExitTimeout (last_error : option string)
| ExitException (msg : string).

(** The non-200 branch: builds [error_msg] and updates [last_error]. *)
Definition error_of_response (r : Response) (last_error : option string)
  : string * option string :=
  let error_msg := "Ollama returned status " ++ PyStr.of_Z (status_code r) in
  match json r with
  | Ok error_data =>
      match dict_get "error" (fields error_data) with
      | Some e => (error_msg ++ ": " ++ e, Some e)
      | None => (error_msg, last_error)
      end
  | Raise _ =>
      let error_msg := error_msg ++ ": " ++ PyStr.take (text r) 200 in
      (error_msg, Some error_msg)
  end.

(** The [try] block of one iteration, given what [requests.post] did. *)
Definition try_block (o : PostOutcome) (last_error : option string) : TryExit :=
  match o with
  | PostConnectionError => ExitConnectionError
  | PostTimeout => ExitTimeout last_error
  | PostOtherError msg => ExitException msg
  | PostResponse r =>
      if status_code r =? 200 then
        match json r with
        | Raise msg => ExitException msg
        | Ok data =>
            match dict_get "response" (fields data) with
            | Some answer => ExitReturn answer
            | None =>
                ExitException
                  ("Unexpected Ollama response format: " ++ rendered data)
            end
        end
      else
        let (error_msg, last_error') := error_of_response r last_error in
        if is_memory_error error_msg then ExitContinue last_error'
        else ExitException error_msg
  end.

(** How one iteration of the [for] loop ends. *)
Inductive Step : Type :=
| StepReturn (answer : string)
| StepRaise (msg : string)
| StepContinue (last_error : option string).

Definition CONNECT_ERROR : string :=
  "Cannot connect to Ollama. Is Ollama running? Start it with: ollama serve".

Definition TIMEOUT_ERROR : string :=
  "Ollama request timed out. The model might be too slow or not responding.".

(** The [except] clauses.  [final] is [models_to_try[-1]], against which the
    code compares the name of the model being tried. *)
Definition handlers (attempt_model final : string) (e : TryExit) : Step :=
  match e with
  | ExitReturn answer => StepReturn answer
  | ExitContinue last_error => StepContinue last_error
  | ExitConnectionError => StepRaise CONNECT_ERROR
  | ExitTimeout last_error =>
      if negb (attempt_model =? final)%string then StepContinue last_error
      else StepRaise TIMEOUT_ERROR
  | ExitException msg =>
      if (attempt_model =? final)%string
      then StepRaise ("Ollama error: " ++ msg)
      else StepContinue (Some msg)
  end.

(** One iteration of [for attempt_model in models_to_try]. *)
Definition attempt {T : Transport} (prompt attempt_model final : string)
           (last_error : option string) : Net T Step :=
  o <- do_post attempt_model prompt ;;
  ret (handlers attempt_model final (try_block o last_error)).

(** How the [for] loop ends: by [return], by [raise], or by running out of
    models with the last recorded error. *)
Inductive LoopExit : Type :=
| LoopReturn (answer : string)
| LoopRaise (msg : string)
| LoopExhausted (last_error : option string).

Fixpoint try_models {T : Transport} (prompt final : string)
         (remaining : list string) (last_error : option string)
  : Net T LoopExit :=
  match remaining with
  | [] => ret (LoopExhausted last_error)
  | attempt_model :: remaining' =>
      s <- attempt prompt attempt_model final last_error ;;
      match s with
      | StepReturn answer => ret (LoopReturn answer)
      | StepRaise msg => ret (LoopRaise msg)
      | StepContinue last_error' =>
          try_models prompt final remaining' last_error'
      end
  end.

(** [f"{last_error}"] for the optional [last_error]. *)
Definition str_of_last_error (last_error : option string) : string :=
  match last_error with
  | Some e => e
  | None => "None"
  end.

(** The message raised after the loop, when all models failed. *)
Definition error_suggestion (last_error : option string)
           (available : list string) : string :=
  "All models failed. Last error: " ++ str_of_last_error last_error
    ++ PyStr.nl ++ PyStr.nl
    ++ "Try:" ++ PyStr.nl
    ++ "1. Restart Ollama: Close and run 'ollama serve' again" ++ PyStr.nl
    ++ "2. Free up RAM: Close other applications" ++ PyStr.nl
    ++ match available with
       | _ :: _ =>
           "3. Available models: " ++ PyStr.join ", " (firstn 5 available)
             ++ PyStr.nl
       | [] =>
           "3. Install a smaller model: 'ollama pull tinyllama'" ++ PyStr.nl
       end.

(** [query_ollama(prompt, model, fallback_models)] *)
Definition query_ollama {T : Transport} (prompt model : string)
           (fallback_models : list string) : Net T (result string) :=
  let candidates := models_to_try model fallback_models in
  e <- try_models prompt (last candidates "") candidates None ;;
  match e with
  | LoopReturn answer => ret (Ok answer)
  | LoopRaise msg => ret (Raise msg)
  | LoopExhausted last_error =>
      available <- get_available_models ;;
      ret (Raise (error_suggestion last_error available))
  end.

(** [query_ollama(prompt)] with the default model and fallback list. *)
Definition query_ollama_default {T : Transport} (prompt : string)
  : Net T (result string) :=
  query_ollama prompt DEFAULT_MODEL FALLBACK_MODELS.

(** ** The vector store *)

(** A metadata value: the code stores a string under ["source"] and an
    integer under ["chunk"]. *)
Inductive MetaValue : Type :=
| MStr (s : string)
| MInt (n : Z).

Definition Metadata : Type := list (string * MetaValue).

(** One stored chunk. *)
Record Chunk : Type := {
  chunk_id : string;
  chunk_document : string;
  chunk_metadata : Metadata
}.

(** The content of the collection. *)
Definition Store : Type := list Chunk.

(** The part of [collection.query]'s answer that [ask_question] reads: one
    inner list per query text. *)
Record QueryResult : Type := {
  documents : option (list (list string));
  metadatas : option (list (list Metadata))
}.

(** The embedding and similarity engine behind the collection.  [add] takes
    the three parallel lists the code passes and leaves a new content, having
    returned or raised; [query] returns or raises; [format_exc] is the
    traceback text the runtime produces for a raised message. *)
Record Engine : Type := {
  add : Store -> list string -> list string -> list Metadata
        -> result unit * Store;
  query : Store -> string -> Z -> result QueryResult;
  format_exc : string -> string
}.

(** The records a call [add(documents, ids, metadatas)] offers. *)
Definition batch (docs ids : list string) (metas : list Metadata) : list Chunk :=
  map (fun x => {| chunk_id := fst (fst x);
                   chunk_document := snd (fst x);
                   chunk_metadata := snd x |})
      (combine (combine ids docs) metas).

(** ** Routes *)

(** A route returns a body with status 200 or raises [HTTPException]. *)
Inductive http (A : Type) : Type :=
| Http200 (body : A)
| HTTPException (status : Z) (detail : string).
Arguments Http200 {A} body.
Arguments HTTPException {A} status detail.

Record UploadReply : Type := {
  upload_message : string;
  upload_filename : string;
  upload_chunks : Z
}.

(** [f"{filename}_{i}"] *)
Definition chunk_id_of (filename : string) (i : nat) : string :=
  filename ++ "_" ++ PyStr.of_nat i.

(** [{"source": filename, "chunk": i}] *)
Definition chunk_metadata_of (filename : string) (i : nat) : Metadata :=
  [("source", MStr filename); ("chunk", MInt (Z.of_nat i))].

(** [upload_document(file)].  [extracted] is what [extract_text_from_pdf]
    did with the uploaded bytes. *)
Definition upload_document (E : Engine) (filename : string)
           (extracted : result string) (st : Store)
  : http UploadReply * Store :=
  match extracted with
  | Raise msg => (HTTPException 500 msg, st)
  | Ok text =>
      if negb (PyStr.truthy (PyStr.strip text)) then
        (HTTPException 400 "No text found in PDF", st)
      else
        let chunks := chunk_text text default_chunk_size default_overlap in
        match chunks with
        | [] => (HTTPException 400 "Failed to generate chunks from PDF text", st)
        | _ :: _ =>
            let ids := map (chunk_id_of filename) (seq 0 (List.length chunks)) in
            let metas := map (chunk_metadata_of filename) (seq 0 (List.length chunks)) in
            match add E st chunks ids metas with
            | (Raise msg, st') => (HTTPException 500 msg, st')
            | (Ok _, st') =>
                (Http200 {| upload_message := "Document uploaded successfully";
                            upload_filename := filename;
                            upload_chunks := Z.of_nat (List.length chunks) |},
                 st')
            end
        end
  end.

(** [clear_database()] when the engine deletes the collection and creates it
    anew without raising: the store is empty afterwards.  The [except] clause
    of the route, which turns an exception of the engine into status 500, is
    left out of the model. *)
Definition clear_database (st : Store) : http string * Store :=
  (Http200 "Database cleared successfully", []).

(** One entry of the [sources] list of an answer. *)
Record Source : Type := {
  source : MetaValue;
  chunk : MetaValue
}.

Record Answer : Type := {
  answer : string;
  sources : list Source
}.

Definition NO_DOCUMENTS : string :=
  "No documents found. Please upload documents first.".

(** The prompt template of [ask_question]. *)
Definition build_prompt (context question : string) : string :=
  "You are a helpful study assistant. Answer the question based on the provided context. "
    ++ PyStr.nl
    ++ "If the answer is not in the context, say so clearly." ++ PyStr.nl
    ++ PyStr.nl
    ++ "Context:" ++ PyStr.nl
    ++ context ++ PyStr.nl
    ++ PyStr.nl
    ++ "Question: " ++ question ++ PyStr.nl
    ++ PyStr.nl
    ++ "Answer:".

(** The warning sign that opens both error answers (U+26A0 U+FE0F, as the
    six bytes of its UTF-8 encoding). *)
Definition WARNING_SIGN : string :=
  string_of_list_ascii
    (map ascii_of_nat [226; 154; 160; 239; 184; 143]%nat).

(** The answer shown for a memory or buffer failure. *)
Definition memory_error_answer (error_msg : string) : string :=
  WARNING_SIGN ++ " Memory Error: " ++ error_msg ++ PyStr.nl ++ PyStr.nl
    ++ "Quick fixes:" ++ PyStr.nl
    ++ "1. Restart Ollama: Close terminal running 'ollama serve', then run it again"
    ++ PyStr.nl
    ++ "2. Free up RAM: Close other applications" ++ PyStr.nl
    ++ "3. Try a smaller model: Run 'ollama pull tinyllama' then restart"
    ++ PyStr.nl
    ++ "4. Check available models: Visit http://localhost:8000/models".

(** The answer shown for any other failure. *)
Definition generic_error_answer (error_msg : string) : string :=
  WARNING_SIGN ++ " Error: " ++ error_msg ++ PyStr.nl ++ PyStr.nl
    ++ "Please check:" ++ PyStr.nl
    ++ "1. Is Ollama running? (Run 'ollama serve' in terminal)" ++ PyStr.nl
    ++ "2. Is a model installed? (Run 'ollama pull llama3.2:1b' or 'ollama pull tinyllama')".

(** The [except Exception as ollama_error] branch of [ask_question]. *)
Definition error_answer (error_msg : string) : Answer :=
  {| answer := if is_memory_error error_msg
               then memory_error_answer error_msg
               else generic_error_answer error_msg;
     sources := [] |}.

(** [{"source": meta.get("source", "Unknown"), "chunk": meta.get("chunk", 0)}] *)
Definition source_of (meta : Metadata) : Source :=
  {| source := match dict_get "source" meta with
               | Some v => v
               | None => MStr "Unknown"
               end;
     chunk := match dict_get "chunk" meta with
              | Some v => v
              | None => MInt 0
              end |}.

(** The [sources] of a successful answer, from [results.get("metadatas")]. *)
Definition sources_of (results : QueryResult) : list Source :=
  let metadatas := match metadatas results with Some m => m | None => [] end in
  match metadatas with
  | (_ :: _) as first :: _ => map source_of first
  | _ => []
  end.

(** [ask_question(question)] *)
Definition ask_question (E : Engine) {T : Transport} (question : string)
           (st : Store) : Net T (http Answer) :=
  match query E st question 3 with
  | Raise exc =>
      ret (HTTPException 500
             (exc ++ PyStr.nl ++ PyStr.nl ++ "Traceback:" ++ PyStr.nl
                  ++ format_exc E exc))
  | Ok results =>
      let documents := match documents results with Some d => d | None => [] end in
      match documents with
      | [] | [] :: _ =>
          ret (Http200 {| answer := NO_DOCUMENTS; sources := [] |})
      | (_ :: _) as first :: _ =>
          let context := PyStr.join (PyStr.nl ++ PyStr.nl) first in
          let prompt := build_prompt context question in
          r <- query_ollama_default prompt ;;
          match r with
          | Raise error_msg => ret (Http200 (error_answer error_msg))
          | Ok answer =>
              ret (Http200 {| answer := answer; sources := sources_of results |})
          end
      end
  end.

(** *** Sequences of store operations *)

(** An ingestion of a file, with what the text extraction gave, or a clear. *)
Inductive StoreOp : Type :=
| OpUpload (filename : string) (extracted : result string)
| OpClear.

Definition run_op (E : Engine) (st : Store) (op : StoreOp) : Store :=
  match op with
  | OpUpload filename extracted => snd (upload_document E filename extracted st)
  | OpClear => snd (clear_database st)
  end.

(** The store after a sequence of operations on the store [st]. *)
Definition run_ops (E : Engine) (st : Store) (ops : list StoreOp) : Store :=
  fold_left (run_op E) ops st.

(** ** Runs of the fallback loop *)

(** The log entry of a generate request. *)
Definition generate_event (prompt : string) (x : string * PostOutcome) : Event :=
  EvGenerate (fst x) prompt (snd x).

(** [run final remaining last_error attempts exit]: the loop over [remaining],
    entered with [last_error], makes exactly the [attempts] (model tried and
    what came back) and ends with [exit]. *)
Inductive run (final : string)
  : list string -> option string -> list (string * PostOutcome) -> LoopExit
    -> Prop :=
| run_exhausted : forall last_error,
    run final [] last_error [] (LoopExhausted last_error)
| run_return : forall m rest last_error o answer,
    handlers m final (try_block o last_error) = StepReturn answer ->
    run final (m :: rest) last_error [(m, o)] (LoopReturn answer)
| run_raise : forall m rest last_error o msg,
    handlers m final (try_block o last_error) = StepRaise msg ->
    run final (m :: rest) last_error [(m, o)] (LoopRaise msg)
| run_continue : forall m rest last_error o last_error' attempts exit,
    handlers m final (try_block o last_error) = StepContinue last_error' ->
    run final rest last_error' attempts exit ->
    run final (m :: rest) last_error ((m, o) :: attempts) exit.

(** The error text a non-200 response leaves in [last_error] when the
    response carries one: the ["error"] field, or the status line with the
    first 200 characters of a body that is not JSON. *)
Definition observed_error (r : Response) : option string :=
  snd (error_of_response r None).

(** The models a log shows generate requests for, in order. *)
Definition requested_models (log : list Event) : list string :=
  flat_map (fun e => match e with
                     | EvGenerate m _ _ => [m]
                     | EvTags _ => []
                     end) log.

(** A response that carries the result field: status 200 and a JSON object
    with a ["response"] entry. *)
Definition success_with (r : Response) (answer : string) : Prop :=
  status_code r = 200
  /\ exists data, json r = Ok data
                  /\ dict_get "response" (fields data) = Some answer.

(** ** What the code relies on from the engine *)

(** The chunks a query result offers for the question: the first inner list
    of its documents. *)
Definition retrieved (results : QueryResult) : list string :=
  match documents results with
  | Some (first :: _) => first
  | _ => []
  end.

(** The metadata entries a query result carries for the question. *)
Definition retrieved_metadata (results : QueryResult) : list Metadata :=
  match metadatas results with
  | Some (first :: _) => first
  | _ => []
  end.

(** A query returns stored chunks only, and it returns (rather than raises)
    on an empty store. *)
Record QueryContract (E : Engine) : Prop := {
  query_stored :
    forall st question k results,
      query E st question k = Ok results ->
      incl (retrieved results) (map chunk_document st);
  query_empty :
    forall question k, exists results, query E [] question k = Ok results
}.

(** An add stores nothing but old and offered records, and it keeps the ids
    distinct when the offered ids are. *)
Record AddContract (E : Engine) : Prop := {
  add_stored :
    forall st docs ids metas r st',
      add E st docs ids metas = (r, st') ->
      incl st' (st ++ batch docs ids metas);
  add_distinct :
    forall st docs ids metas r st',
      add E st docs ids metas = (r, st') ->
      NoDup (map chunk_id st) -> NoDup ids ->
      NoDup (map chunk_id st')
}.

(** A chunk as [upload_document] makes them: the [index]-th chunk of the file
    [filename]. *)
Definition ingested (c : Chunk) : Prop :=
  exists filename index,
    chunk_id c = filename ++ "_" ++ PyStr.of_nat index
    /\ chunk_metadata c
       = [("source", MStr filename); ("chunk", MInt (Z.of_nat index))].

(** The invariant of the store: ids are pairwise distinct and every record
    has the shape an ingestion gives it. *)
Definition store_ok (st : Store) : Prop :=
  NoDup (map chunk_id st) /\ Forall ingested st.

(** ** Concrete collaborators, for running the model *)

(** A model server that plays a script: the next generate request gets the
    next outcome of the script, and a connection error once the script is
    over; the tags request always gets [tags]. *)
Definition scripted (tags : TagsOutcome) : Transport :=
  {| World := list PostOutcome;
     post_generate := fun w _ _ =>
       match w with
       | [] => (PostConnectionError, [])
       | o :: w' => (o, w')
       end;
     get_tags := fun w => (tags, w) |}.

(** A response with the given status whose body is a JSON object with the
    given fields. *)
Definition json_response (status : Z) (fs : list (string * string)) : Response :=
  {| status_code := status;
     json := Ok {| fields := fs; rendered := "" |};
     text := "" |}.

(** A successful generation. *)
Definition model_reply : PostOutcome :=
  PostResponse (json_response 200 [("response", "An endofunctor with structure.")]).

(** A non-200 response of an overloaded server. *)
Definition memory_failure : PostOutcome :=
  PostResponse (json_response 500 [("error", "Unable to allocate 2 GiB")]).

(** A store with one chunk. *)
Definition notes_store : Store :=
  [{| chunk_id := "notes.pdf_0";
      chunk_document := "A monad is a monoid in the category of endofunctors.";
      chunk_metadata := chunk_metadata_of "notes.pdf" 0 |}].

(** Membership of an id in a list of ids. *)
Definition id_in (i : string) (ids : list string) : bool :=
  existsb (fun j => (j =? i)%string) ids.

Fixpoint distinct_ids (ids : list string) : bool :=
  match ids with
  | [] => true
  | i :: ids' => negb (id_in i ids') && distinct_ids ids'
  end.

(** An engine without embeddings: an add with a repeated id in the batch is
    refused, records whose id is already stored are skipped, and a query
    answers with the first [k] stored chunks. *)
Definition list_engine : Engine :=
  {| add := fun st docs ids metas =>
       if distinct_ids ids then
         (Ok tt,
          (st ++ filter (fun c => negb (id_in (chunk_id c) (map chunk_id st)))
                        (batch docs ids metas))%list)
       else (Raise "Expected IDs to be unique", st);
     query := fun st _ k =>
       Ok {| documents := Some [firstn (Z.to_nat k) (map chunk_document st)];
             metadatas := Some [firstn (Z.to_nat k) (map chunk_metadata st)] |};
     format_exc := fun _ => "" |}.

(** The list engine asked not to include metadata in its query results. *)
Definition documents_only_engine : Engine :=
  {| add := add list_engine;
     query := fun st _ k =>
       Ok {| documents := Some [firstn (Z.to_nat k) (map chunk_document st)];
             metadatas := None |};
     format_exc := format_exc list_engine |}.

(** ** Text extraction *)

(** [extract_text_from_pdf(pdf_bytes)].  [reader] is what [PyPDF2.PdfReader]
    makes of the bytes: it raises, or it yields for every page what
    [page.extract_text()] returns, which is [None] for a page without text. *)
Definition extract_text_from_pdf (reader : result (list (option string)))
  : result string :=
  match reader with
  | Raise msg => Raise msg
  | Ok pages =>
      Ok (PyStr.join ""
            (map (fun page_text =>
                    match page_text with
                    | Some t => t
                    | None => ""
                    end) pages))
  end.

(** The upload route from the reader on: extraction, then the rest. *)
Definition upload_pdf (E : Engine) (filename : string)
           (reader : result (list (option string))) (st : Store)
  : http UploadReply * Store :=
  upload_document E filename (extract_text_from_pdf reader) st.

(** ** Status routes *)

(** One entry of the ["models"] list of [GET /api/tags], with the three
    fields the routes read, each present or not. *)
Record ModelEntry : Type := {
  entry_name : option string;
  entry_size : option Z;
  entry_modified_at : option string
}.

(** Outcome of [requests.get(OLLAMA_TAGS_URL, timeout=5)] as the status
    routes split it: a connection error, another exception with its text, or
    a response with its status and what [response.json().get("models")]
    gives (the decoding may raise, the key may be missing). *)
Inductive GetOutcome : Type :=
| GetConnectionError
| GetOtherError (msg : string)
| GetResponse (status : Z) (body : result (option (list ModelEntry))).

(** The same outcome as [get_available_models] sees it. *)
Definition tags_view (o : GetOutcome) : TagsOutcome :=
  match o with
  | GetConnectionError => TagsError
  | GetOtherError _ => TagsError
  | GetResponse status body =>
      TagsResponse status
        match body with
        | Raise msg => Raise msg
        | Ok ms => Ok {| models := option_map (map entry_name) ms |}
        end
  end.

(** [[m.get("name", "") for m in models]] *)
Definition model_names (ms : option (list ModelEntry)) : list string :=
  match ms with
  | None => []
  | Some l =>
      map (fun m => match entry_name m with Some n => n | None => "" end) l
  end.

(** The answer of [health_check]: the healthy one with its lists, or an
    unhealthy one with its ["ollama"] and ["error"] texts. *)
Inductive Health : Type :=
| Healthy (models : list string) (default_model : string)
          (model_available : bool) (recommended_small_models : list string)
| Unhealthy (ollama error : string).

(** [any(x in m.lower() for x in ["tiny", "1b", "phi"])] *)
Definition is_small_model (m : string) : bool :=
  existsb (fun x => PyStr.contains x (PyStr.lower m)) ["tiny"; "1b"; "phi"].

Definition CANNOT_CONNECT_HINT : string :=
  "Cannot connect to Ollama. Please run 'ollama serve' in terminal.".

(** [health_check()] *)
Definition health_check (o : GetOutcome) : Health :=
  match o with
  | GetConnectionError => Unhealthy "not running" CANNOT_CONNECT_HINT
  | GetOtherError msg => Unhealthy "error" msg
  | GetResponse status body =>
      if status =? 200 then
        match body with
        | Raise msg => Unhealthy "error" msg
        | Ok ms =>
            let names := model_names ms in
            Healthy names DEFAULT_MODEL
                    (existsb (fun name => PyStr.contains DEFAULT_MODEL name)
                             names)
                    (filter is_small_model names)
        end
      else Unhealthy "responding but error" ("Status " ++ PyStr.of_Z status)
  end.

(** One entry of the answer of [list_models]. *)
Record ModelInfo : Type := {
  info_name : string;
  info_size : Z;
  info_modified : string
}.

(** The answer of [list_models]: the models with their count, or an error. *)
Inductive ModelList : Type :=
| ListSuccess (model_info : list ModelInfo) (count : Z)
| ListError (error : string).

(** [list_models()] *)
Definition list_models (o : GetOutcome) : ModelList :=
  match o with
  | GetConnectionError => ListError CANNOT_CONNECT_HINT
  | GetOtherError msg => ListError msg
  | GetResponse status body =>
      if status =? 200 then
        match body with
        | Raise msg => ListError msg
        | Ok ms =>
            let model_info :=
                map (fun m =>
                       {| info_name := match entry_name m with
                                       | Some n => n
                                       | None => ""
                                       end;
                          info_size := match entry_size m with
                                       | Some z => z
                                       | None => 0
                                       end;
                          info_modified := match entry_modified_at m with
                                           | Some t => t
                                           | None => ""
                                           end |})
                    match ms with Some l => l | None => [] end in
            ListSuccess model_info (Z.of_nat (List.length model_info))
        end
      else ListError ("Ollama returned status " ++ PyStr.of_Z status)
  end.

(** ** Shapes of what [query_ollama] raises *)

(** The four kinds of message [query_ollama] raises. *)
Inductive RaisedKind (msg : string) : Prop :=
| RaisedConnect : msg = CONNECT_ERROR -> RaisedKind msg
| RaisedTimeout : msg = TIMEOUT_ERROR -> RaisedKind msg
| RaisedModel : forall inner, msg = "Ollama error: " ++ inner -> RaisedKind msg
| RaisedAllFailed : forall e available,
    msg = error_suggestion (Some e) available -> RaisedKind msg.

(** The requests for the installed models in a log. *)
Definition tags_requests (log : list Event) : list Event :=
  filter (fun e => match e with
                   | EvTags _ => true
                   | EvGenerate _ _ _ => false
                   end) log.

(** The entry of a [sources] list for the [index]-th chunk of [filename]. *)
Definition source_entry (x : string * nat) : Source :=
  {| source := MStr (fst x); chunk := MInt (Z.of_nat (snd x)) |}.

Example chunk_text_ex1 :
  chunk_text "abcdefghij" 4 1 = ["abcd"; "defg"; "ghij"; "j"].
Proof. reflexivity. Qed.

Example chunk_text_ex2 :
  chunk_text "abc" 2 5 = ["ab"; "bc"; "c"].
Proof. reflexivity. Qed.

Example chunk_text_ex3 :
  chunk_text "abcdef" (-2) (-5) = ["abcd"; ""].
Proof. reflexivity. Qed.

Example reference_chunks_ex1 :
  reference_chunks "abcdefghij" 4 1 = ["abcd"; "defg"; "ghij"; "j"].
Proof. reflexivity. Qed.

(** * Properties *)

(** ** Substrings *)

Lemma substring_nil_l (n m : nat) : substring n m "" = "".
Proof. destruct n, m; reflexivity. Qed.

Lemma substring_zero_len (s : string) (n : nat) : substring n 0 s = "".
Proof.
  revert n. induction s as [|c s IH]; intros [|n]; simpl; auto.
Qed.

Lemma substring_length (s : string) (n m : nat) :
  String.length (substring n m s) = Nat.min m (String.length s - n).
Proof.
  revert n m. induction s as [|c s IH]; intros n m.
  - rewrite substring_nil_l. simpl. lia.
  - destruct n as [|n].
    + destruct m as [|m]; simpl; [reflexivity|].
      rewrite IH. rewrite Nat.sub_0_r. reflexivity.
    + simpl. apply IH.
Qed.

Lemma substring_beyond (s : string) (n m : nat) :
  (String.length s <= n)%nat -> substring n m s = "".
Proof.
  revert n m. induction s as [|c s IH]; intros n m H.
  - apply substring_nil_l.
  - destruct n as [|n]; simpl in *; [lia|]. apply IH. lia.
Qed.

Lemma substring_clamp (s : string) (n m : nat) :
  substring n m s = substring n (Nat.min m (String.length s - n)) s.
Proof.
  revert n m. induction s as [|c s IH]; intros n m.
  - now rewrite !substring_nil_l.
  - destruct n as [|n].
    + destruct m as [|m]; simpl; [reflexivity|].
      f_equal. rewrite (IH 0%nat m). now rewrite Nat.sub_0_r.
    + simpl. apply IH.
Qed.

Lemma substring_split (s : string) (n a b : nat) :
  substring n (a + b) s = substring n a s ++ substring (n + a) b s.
Proof.
  revert n a. induction s as [|c s IH]; intros n a.
  - now rewrite !substring_nil_l.
  - destruct n as [|n].
    + destruct a as [|a]; simpl; [reflexivity|].
      f_equal. apply (IH 0%nat a).
    + simpl. apply IH.
Qed.

Lemma substring_all (s : string) : substring 0 (String.length s) s = s.
Proof.
  induction s as [|c s IH]; simpl; [reflexivity|]. now rewrite IH.
Qed.

Lemma substring_prefix (s : string) (n m k : nat) :
  substring 0 k (substring n m s) = substring n (Nat.min k m) s.
Proof.
  revert n m k. induction s as [|c s IH]; intros n m k.
  - now rewrite !substring_nil_l.
  - destruct n as [|n].
    + destruct m as [|m].
      * rewrite Nat.min_0_r. simpl. now destruct k.
      * destruct k as [|k]; simpl; [reflexivity|].
        f_equal. apply (IH 0%nat).
    + simpl. apply IH.
Qed.

(** ** Slices *)

Lemma len_nonneg (s : string) : 0 <= PyStr.len s.
Proof. unfold PyStr.len. lia. Qed.

(** With both bounds non-negative a slice is a plain substring. *)
Lemma slice_nonneg (s : string) (lo hi : Z) :
  0 <= lo -> 0 <= hi ->
  PyStr.slice s lo hi = substring (Z.to_nat lo) (Z.to_nat (hi - lo)) s.
Proof.
  intros Hlo Hhi. unfold PyStr.slice, PyStr.adjust.
  destruct (Z.ltb_spec lo 0); [lia|].
  destruct (Z.ltb_spec hi 0); [lia|].
  pose proof (len_nonneg s) as HL. unfold PyStr.len in *.
  destruct (Z.ltb_spec (Z.min lo (Z.of_nat (String.length s)))
                       (Z.min hi (Z.of_nat (String.length s)))) as [Hlt|Hge].
  - rewrite (substring_clamp s (Z.to_nat lo) (Z.to_nat (hi - lo))).
    f_equal; lia.
  - destruct (Z_lt_dec lo (Z.of_nat (String.length s))).
    + replace (Z.to_nat (hi - lo)) with 0%nat by lia.
      now rewrite substring_zero_len.
    + symmetry. apply substring_beyond. lia.
Qed.

Lemma slice_length (s : string) (lo hi : Z) :
  0 <= lo -> 0 <= hi ->
  PyStr.len (PyStr.slice s lo hi)
  = Z.max 0 (Z.min (hi - lo) (PyStr.len s - lo)).
Proof.
  intros Hlo Hhi. rewrite slice_nonneg by assumption.
  unfold PyStr.len. rewrite substring_length. lia.
Qed.

Lemma substring_substring (s : string) (n m k j : nat) :
  substring k j (substring n m s) = substring (n + k) (Nat.min j (m - k)) s.
Proof.
  revert n m k j. induction s as [|c s IH]; intros n m k j.
  - now rewrite !substring_nil_l.
  - destruct n as [|n]; [|simpl; apply IH].
    destruct m as [|m].
    + change (substring 0 0 (String c s)) with "".
      rewrite substring_nil_l. change (0 - k)%nat with 0%nat.
      rewrite Nat.min_0_r. now rewrite substring_zero_len.
    + destruct k as [|k].
      * destruct j as [|j]; simpl; [reflexivity|].
        f_equal. rewrite (IH 0%nat m 0%nat j). now rewrite Nat.sub_0_r.
      * simpl. apply (IH 0%nat m k j).
Qed.

Lemma append_nil_r (s : string) : s ++ "" = s.
Proof. induction s as [|c s IH]; simpl; [reflexivity|]. now rewrite IH. Qed.

Lemma append_assoc (s1 s2 s3 : string) : (s1 ++ s2) ++ s3 = s1 ++ (s2 ++ s3).
Proof. induction s1 as [|c s1 IH]; simpl; [reflexivity|]. now rewrite IH. Qed.

Lemma append_length (s1 s2 : string) :
  String.length (s1 ++ s2) = (String.length s1 + String.length s2)%nat.
Proof. induction s1 as [|c s1 IH]; simpl; [reflexivity|]. now rewrite IH. Qed.

Lemma concat_empty_cons (x : string) (xs : list string) :
  String.concat "" (x :: xs) = x ++ String.concat "" xs.
Proof.
  destruct xs as [|y ys]; simpl; [|reflexivity].
  now rewrite append_nil_r.
Qed.

(** ** The chunker *)

Lemma advance_pos (chunk_size overlap : Z) : 1 <= advance chunk_size overlap.
Proof. unfold advance. lia. Qed.

Lemma window_count_zero (x a : Z) : 1 <= a -> x <= 0 -> window_count x a = 0%nat.
Proof.
  intros Ha Hx. unfold window_count.
  assert ((x + a - 1) / a < 1) by (apply Z.div_lt_upper_bound; lia).
  lia.
Qed.

Lemma window_count_succ (x a : Z) :
  1 <= a -> 0 < x -> window_count x a = S (window_count (x - a) a).
Proof.
  intros Ha Hx. unfold window_count.
  replace (x + a - 1) with ((x - 1) + 1 * a) by lia.
  rewrite Z.div_add by lia.
  replace (x - a + a - 1) with (x - 1) by lia.
  assert (0 <= (x - 1) / a) by (apply Z.div_pos; lia).
  lia.
Qed.

(** [window_count L a] is the least [n] with [L <= n * a]. *)
Lemma window_count_covers (x a : Z) :
  1 <= a -> x <= Z.of_nat (window_count x a) * a.
Proof.
  intros Ha. unfold window_count.
  destruct (Z_le_gt_dec x 0) as [Hx|Hx].
  - assert (0 <= Z.of_nat (Z.to_nat ((x + a - 1) / a))) by lia. nia.
  - assert (0 <= (x + a - 1) / a) by (apply Z.div_pos; lia).
    rewrite Z2Nat.id by assumption.
    pose proof (Z.mul_succ_div_gt (x + a - 1) a ltac:(lia)). lia.
Qed.

Lemma window_count_least (x a : Z) (n : nat) :
  1 <= a -> x <= Z.of_nat n * a -> (window_count x a <= n)%nat.
Proof.
  intros Ha Hn. unfold window_count.
  assert ((x + a - 1) / a < Z.of_nat n + 1)
    by (apply Z.div_lt_upper_bound; lia).
  lia.
Qed.

Section Chunker.

Variable text : string.
Variables chunk_size overlap : Z.

Local Abbreviation L := (PyStr.len text).
Local Abbreviation a := (advance chunk_size overlap).

(** One unfolding of the loop. *)
Lemma chunk_loop_step (start : Z) (chunks : list string) :
  chunk_loop text chunk_size overlap start chunks =
  if Z_lt_dec start L
  then chunk_loop text chunk_size overlap (start + a)
                  (chunks ++ [PyStr.slice text start (start + chunk_size)])
  else chunks.
Proof.
  rewrite chunk_loop_equation_1.
  destruct (Z_lt_dec start (PyStr.len text)); reflexivity.
Qed.

(** Induction along the loop: to prove [P start], [P] may be assumed for the
    next start whenever the loop condition holds. *)
Lemma start_ind (P : Z -> Prop) :
  (forall start, (start < L -> P (start + a)) -> P start) ->
  forall start, P start.
Proof.
  intros step start.
  remember (Z.to_nat (L - start)) as n eqn:Hn.
  revert start Hn. induction n as [n IH] using lt_wf_ind. intros start Hn.
  apply step. intros Hlt.
  apply (IH (Z.to_nat (L - (start + a)))); [|reflexivity].
  pose proof (advance_pos chunk_size overlap). lia.
Qed.

(** The chunks already collected are a prefix of the result. *)
Lemma chunk_loop_acc (start : Z) (chunks : list string) :
  chunk_loop text chunk_size overlap start chunks
  = (chunks ++ chunk_loop text chunk_size overlap start [])%list.
Proof.
  revert chunks. pattern start. apply start_ind. clear start.
  intros start IH chunks.
  rewrite (chunk_loop_step start chunks), (chunk_loop_step start []).
  destruct (Z_lt_dec start L) as [Hlt|Hge].
  - rewrite (IH Hlt (chunks ++ _)%list), (IH Hlt ([] ++ _)%list).
    now rewrite <- app_assoc.
  - now rewrite app_nil_r.
Qed.

Lemma chunks_from_emit (start : Z) :
  start < L ->
  chunks_from text chunk_size overlap start
  = PyStr.slice text start (start + chunk_size) :: chunks_from text chunk_size overlap (start + a).
Proof.
  intros Hlt. unfold chunks_from. rewrite chunk_loop_step.
  destruct (Z_lt_dec start L); [|lia].
  now rewrite chunk_loop_acc.
Qed.

Lemma chunks_from_stop (start : Z) : L <= start -> chunks_from text chunk_size overlap start = [].
Proof.
  intros Hge. unfold chunks_from. rewrite chunk_loop_step.
  destruct (Z_lt_dec start L); [lia|reflexivity].
Qed.

Lemma chunk_text_chunks_from :
  chunk_text text chunk_size overlap = chunks_from text chunk_size overlap 0.
Proof.
  unfold chunk_text. destruct (PyStr.truthy text) eqn:E; simpl; [reflexivity|].
  symmetry. apply chunks_from_stop.
  destruct text; [apply Z.le_refl|discriminate].
Qed.

Lemma chunks_from_sliding_window (start : Z) :
  sliding_window text chunk_size overlap start (chunks_from text chunk_size overlap start).
Proof.
  pattern start. apply start_ind. clear start. intros start IH.
  destruct (Z_lt_dec start L) as [Hlt|Hge].
  - rewrite chunks_from_emit by assumption.
    apply sw_emit; [exact Hlt|]. apply IH, Hlt.
  - rewrite chunks_from_stop by lia. apply sw_stop. lia.
Qed.

(** The reference relation has one outcome only. *)
Lemma sliding_window_functional (start : Z) (l1 l2 : list string) :
  sliding_window text chunk_size overlap start l1 ->
  sliding_window text chunk_size overlap start l2 ->
  l1 = l2.
Proof.
  intros H1. revert l2.
  induction H1 as [start Hge|start rest Hlt _ IH]; intros l2 H2;
    inversion H2; subst; try lia; [reflexivity|].
  f_equal. now apply IH.
Qed.

Lemma chunks_from_closed (start : Z) :
  chunks_from text chunk_size overlap start
  = map (fun j : nat =>
           PyStr.slice text (start + Z.of_nat j * a)
                       (start + Z.of_nat j * a + chunk_size))
        (seq 0 (window_count (L - start) a)).
Proof.
  pattern start. apply start_ind. clear start. intros start IH.
  pose proof (advance_pos chunk_size overlap) as Ha.
  destruct (Z_lt_dec start L) as [Hlt|Hge].
  - rewrite chunks_from_emit by assumption.
    rewrite (window_count_succ (L - start) a) by lia.
    rewrite (IH Hlt). simpl.
    f_equal; [f_equal; lia|].
    rewrite <- seq_shift, map_map.
    replace (L - start - a) with (L - (start + a)) by lia.
    apply map_ext. intros j. f_equal; lia.
  - rewrite chunks_from_stop by lia.
    now rewrite window_count_zero by lia.
Qed.

Lemma chunk_text_reference :
  chunk_text text chunk_size overlap = reference_chunks text chunk_size overlap.
Proof.
  rewrite chunk_text_chunks_from, chunks_from_closed.
  unfold reference_chunks, window, window_end, window_start.
  rewrite Z.sub_0_r.
  apply map_ext. intros j. f_equal.
Qed.

Lemma chunk_text_length :
  List.length (chunk_text text chunk_size overlap) = window_count L a.
Proof.
  rewrite chunk_text_reference. unfold reference_chunks.
  now rewrite length_map, length_seq.
Qed.

End Chunker.

(** No padding: for a non-negative [chunk_size] the [k]-th chunk holds the
    characters from its start to its end offset or to the end of the text,
    whichever comes first. *)
Lemma window_length (text : string) (chunk_size overlap : Z) (k : nat) :
  0 <= chunk_size ->
  window_start chunk_size overlap k < PyStr.len text ->
  PyStr.len (window text chunk_size overlap k)
  = Z.min chunk_size (PyStr.len text - window_start chunk_size overlap k).
Proof.
  intros Hcs Hlt. unfold window, window_end.
  pose proof (advance_pos chunk_size overlap) as Ha.
  assert (0 <= window_start chunk_size overlap k)
    by (unfold window_start; nia).
  rewrite slice_length by lia. lia.
Qed.

(** Every emitted window starts inside the text. *)
Lemma window_start_below (L : Z) (chunk_size overlap : Z) (k : nat) :
  (k < window_count L (advance chunk_size overlap))%nat ->
  window_start chunk_size overlap k < L.
Proof.
  intros Hk. pose proof (advance_pos chunk_size overlap) as Ha.
  unfold window_start.
  destruct (Z_lt_dec (Z.of_nat k * advance chunk_size overlap) L) as [|Hge];
    [assumption|].
  assert (window_count L (advance chunk_size overlap) <= k)%nat
    by (apply window_count_least; lia).
  lia.
Qed.

(** C1.  [chunk_text] returns, for every text, chunk size and overlap, the
    chunks of the reference sliding window: from offset 0 it emits
    [text[start:start+chunk_size]], advances by [max(chunk_size - overlap, 1)]
    (at least one character, whatever the overlap) and repeats while
    [start < len(text)].  The result is the only list the reference admits, it
    equals the windows listed by offset, the empty text gives no chunk, and
    no chunk is padded. *)
Theorem chunk_text_is_sliding_window (text : string) (chunk_size overlap : Z) :
  sliding_window text chunk_size overlap 0 (chunk_text text chunk_size overlap)
  /\ (forall chunks,
        sliding_window text chunk_size overlap 0 chunks
        <-> chunks = chunk_text text chunk_size overlap)
  /\ chunk_text text chunk_size overlap
     = reference_chunks text chunk_size overlap
  /\ 1 <= advance chunk_size overlap
  /\ chunk_text "" chunk_size overlap = []
  /\ (0 <= chunk_size ->
      forall k,
        (k < List.length (chunk_text text chunk_size overlap))%nat ->
        nth k (chunk_text text chunk_size overlap) ""
        = window text chunk_size overlap k
        /\ PyStr.len (window text chunk_size overlap k)
           = Z.min chunk_size
                   (PyStr.len text - window_start chunk_size overlap k)).
Proof.
  assert (Hsw : sliding_window text chunk_size overlap 0
                               (chunk_text text chunk_size overlap)).
  { rewrite chunk_text_chunks_from. apply chunks_from_sliding_window. }
  repeat split.
  - exact Hsw.
  - intros H. exact (sliding_window_functional _ _ _ _ _ _ H Hsw).
  - intros ->. exact Hsw.
  - apply chunk_text_reference.
  - apply advance_pos.
  - rewrite chunk_text_length in H0.
    rewrite chunk_text_reference. unfold reference_chunks.
    rewrite (nth_indep _ "" (window text chunk_size overlap 0%nat))
      by (now rewrite length_map, length_seq).
    rewrite map_nth. now rewrite seq_nth.
  - apply window_length; [assumption|].
    apply window_start_below. now rewrite <- chunk_text_length.
Qed.

(** ** Coverage of the text when the overlap is a true overlap *)

Section Coverage.

Variable text : string.
Variables chunk_size overlap : Z.
Hypothesis overlap_nonneg : 0 <= overlap.
Hypothesis overlap_small : overlap < chunk_size.

Local Abbreviation L := (PyStr.len text).
Local Abbreviation a := (chunk_size - overlap).

Lemma advance_exact : advance chunk_size overlap = a.
Proof. unfold advance. lia. Qed.

(** Two pieces of the text that meet at [start + n] make one piece, also
    when the first one runs past the end of the text. *)
Lemma substring_glue (start n : Z) :
  0 <= start -> 0 <= n ->
  substring (Z.to_nat start) (Z.to_nat n) text
    ++ substring (Z.to_nat (start + n)) (Z.to_nat (L - (start + n))) text
  = substring (Z.to_nat start) (Z.to_nat (L - start)) text.
Proof.
  intros Hs Hn. destruct (Z_le_gt_dec n (L - start)) as [Hle|Hgt].
  - replace (Z.to_nat (L - start))
      with (Z.to_nat n + Z.to_nat (L - (start + n)))%nat by lia.
    rewrite substring_split. do 2 f_equal. lia.
  - replace (Z.to_nat (L - (start + n))) with 0%nat by lia.
    rewrite substring_zero_len, append_nil_r.
    rewrite (substring_clamp text _ (Z.to_nat n)).
    rewrite (substring_clamp text _ (Z.to_nat (L - start))).
    f_equal. unfold PyStr.len in *. lia.
Qed.

(** The first [a] characters of the chunks emitted from [start] on make up
    the text from [start] on. *)
Lemma nonoverlapping_from (start : Z) :
  0 <= start ->
  nonoverlapping_concat chunk_size overlap
                        (chunks_from text chunk_size overlap start)
  = substring (Z.to_nat start) (Z.to_nat (L - start)) text.
Proof.
  pattern start. apply (start_ind text chunk_size overlap). clear start.
  intros start IH Hs. rewrite advance_exact in IH.
  unfold nonoverlapping_concat in *.
  destruct (Z_lt_dec start L) as [Hlt|Hge].
  - rewrite chunks_from_emit by assumption.
    rewrite advance_exact. simpl map. rewrite concat_empty_cons.
    rewrite (IH Hlt) by lia.
    unfold PyStr.take. rewrite (slice_nonneg text) by lia.
    rewrite slice_nonneg by lia.
    rewrite substring_substring.
    rewrite <- (substring_glue start a) by lia.
    do 2 f_equal; lia.
  - rewrite chunks_from_stop by lia.
    replace (Z.to_nat (L - start)) with 0%nat by lia.
    now rewrite substring_zero_len.
Qed.

(** The chunks emitted from [start] on, each without its first [overlap]
    characters, make up the text from [start + overlap] on. *)
Lemma overlapping_from (start : Z) :
  0 <= start ->
  String.concat ""
    (map (fun c => PyStr.drop c overlap)
         (chunks_from text chunk_size overlap start))
  = substring (Z.to_nat (start + overlap))
              (Z.to_nat (L - (start + overlap))) text.
Proof.
  pattern start. apply (start_ind text chunk_size overlap). clear start.
  intros start IH Hs. rewrite advance_exact in IH.
  destruct (Z_lt_dec start L) as [Hlt|Hge].
  - rewrite chunks_from_emit by assumption.
    rewrite advance_exact. simpl map. rewrite concat_empty_cons.
    rewrite (IH Hlt) by lia.
    rewrite (slice_nonneg text) by lia.
    unfold PyStr.drop, PyStr.adjust.
    destruct (Z.ltb_spec overlap 0) as [|_]; [lia|].
    unfold PyStr.len at 1 2 3. rewrite substring_length.
    rewrite substring_substring.
    rewrite <- (substring_glue (start + overlap) a) by lia.
    unfold PyStr.len in *.
    destruct (Z_le_gt_dec overlap (Z.of_nat (String.length text) - start)).
    + f_equal.
      * rewrite (substring_clamp text (Z.to_nat (start + overlap))
                                 (Z.to_nat (chunk_size - overlap))).
        f_equal; lia.
      * f_equal; lia.
    + replace (Z.to_nat (Z.of_nat (String.length text)
                        - (start + overlap + (chunk_size - overlap))))
        with 0%nat by lia.
      replace (Z.to_nat (Z.of_nat (String.length text)
                        - (start + (chunk_size - overlap) + overlap)))
        with 0%nat by lia.
      rewrite !substring_zero_len, !append_nil_r.
      rewrite (substring_beyond text (Z.to_nat (start + overlap))) by lia.
      apply substring_beyond. lia.
  - rewrite chunks_from_stop by lia.
    replace (Z.to_nat (L - (start + overlap))) with 0%nat by lia.
    now rewrite substring_zero_len.
Qed.

Lemma nonoverlapping_concat_text :
  nonoverlapping_concat chunk_size overlap
                        (chunk_text text chunk_size overlap) = text.
Proof.
  rewrite chunk_text_chunks_from, nonoverlapping_from by lia.
  unfold PyStr.len. rewrite Z.sub_0_r, Nat2Z.id.
  apply substring_all.
Qed.

Lemma merge_overlapping_text :
  merge_overlapping overlap (chunk_text text chunk_size overlap) = text.
Proof.
  rewrite chunk_text_chunks_from.
  destruct (Z_lt_dec 0 L) as [Hlt|Hge].
  - rewrite chunks_from_emit by assumption. unfold merge_overlapping.
    rewrite advance_exact.
    change (0 + (chunk_size - overlap)) with (chunk_size - overlap).
    rewrite (overlapping_from a) by lia.
    rewrite slice_nonneg by lia.
    replace (0 + chunk_size - 0) with chunk_size by lia.
    replace (a + overlap) with (0 + chunk_size) by lia.
    rewrite (substring_glue 0 chunk_size) by lia.
    unfold PyStr.len. rewrite Z.sub_0_r, Nat2Z.id.
    apply substring_all.
  - rewrite chunks_from_stop by lia. simpl.
    unfold PyStr.len in Hge. destruct text; [reflexivity|simpl in Hge; lia].
Qed.

(** The last window ends at or after the end of the text. *)
Lemma last_window_reaches_end :
  L <= last_window_end text chunk_size overlap.
Proof.
  unfold last_window_end, window_end, window_start.
  rewrite chunk_text_length, advance_exact.
  pose proof (window_count_covers L a ltac:(lia)) as Hc.
  destruct (window_count L a) as [|n]; simpl pred; lia.
Qed.

(** The specification's approximate count, [ceil((L - overlap) / a)], is a
    lower bound of the number of chunks and misses it by at most
    [ceil(overlap / a)]. *)
Lemma window_count_bounds :
  (window_count (L - overlap) a <= window_count L a
   <= window_count (L - overlap) a + window_count overlap a)%nat.
Proof.
  assert (Ha : 1 <= a) by lia.
  split.
  - apply window_count_least; [assumption|].
    pose proof (window_count_covers L a Ha). lia.
  - apply window_count_least; [assumption|].
    pose proof (window_count_covers (L - overlap) a Ha).
    pose proof (window_count_covers overlap a Ha).
    rewrite Nat2Z.inj_add. lia.
Qed.

End Coverage.

(** C5 (amended).  For every text of length [L] and parameters with
    [0 <= overlap < chunk_size], [chunk_text] produces exactly
    [ceil(L / (chunk_size - overlap))] windows, a number that lies between
    [ceil((L - overlap) / (chunk_size - overlap))] and that plus
    [ceil(overlap / (chunk_size - overlap))]; the chunks are the windows
    listed by offset, concatenating their non-overlapping portions (taken
    from the front of every chunk, or from the back of every chunk but the
    first) gives back the text, the first window starts at offset 0 and the
    last window ends at or after [L]; a text of 2500 characters with
    [chunk_size = 1000] and [overlap = 200] gives exactly 4 chunks. *)
Theorem chunk_text_covers_text (text : string) (chunk_size overlap : Z) :
  0 <= overlap ->
  overlap < chunk_size ->
  List.length (chunk_text text chunk_size overlap)
  = window_count (PyStr.len text) (chunk_size - overlap)
  /\ (window_count (PyStr.len text - overlap) (chunk_size - overlap)
      <= List.length (chunk_text text chunk_size overlap)
      <= window_count (PyStr.len text - overlap) (chunk_size - overlap)
         + window_count overlap (chunk_size - overlap))%nat
  /\ chunk_text text chunk_size overlap
     = map (window text chunk_size overlap)
           (seq 0 (window_count (PyStr.len text) (chunk_size - overlap)))
  /\ nonoverlapping_concat chunk_size overlap
                           (chunk_text text chunk_size overlap) = text
  /\ merge_overlapping overlap (chunk_text text chunk_size overlap) = text
  /\ window_start chunk_size overlap 0 = 0
  /\ PyStr.len text <= last_window_end text chunk_size overlap
  /\ (PyStr.len text = 2500 -> chunk_size = 1000 -> overlap = 200 ->
      List.length (chunk_text text chunk_size overlap) = 4%nat).
Proof.
  intros Hov Hlt.
  assert (Hlen : List.length (chunk_text text chunk_size overlap)
                 = window_count (PyStr.len text) (chunk_size - overlap)).
  { rewrite chunk_text_length. now rewrite advance_exact. }
  repeat split.
  - exact Hlen.
  - rewrite Hlen. now apply window_count_bounds.
  - rewrite Hlen. now apply window_count_bounds.
  - rewrite chunk_text_reference. unfold reference_chunks.
    now rewrite advance_exact.
  - now apply nonoverlapping_concat_text.
  - now apply merge_overlapping_text.
  - now apply last_window_reaches_end.
  - intros HL Hcs Ho. rewrite Hlen, HL, Hcs, Ho. reflexivity.
Qed.

Lemma chunk_text_covers_text_witness :
  chunk_text "abcdefghij" 4 1 = ["abcd"; "defg"; "ghij"; "j"]
  /\ nonoverlapping_concat 4 1 (chunk_text "abcdefghij" 4 1) = "abcdefghij"
  /\ merge_overlapping 1 (chunk_text "abcdefghij" 4 1) = "abcdefghij"
  /\ PyStr.len "abcdefghij" <= last_window_end "abcdefghij" 4 1.
Proof.
  pose proof (chunk_text_covers_text "abcdefghij" 4 1 ltac:(lia) ltac:(lia))
    as (_ & _ & _ & Hfront & Hback & _ & Hend & _).
  split; [reflexivity|]. split; [exact Hfront|]. split; [exact Hback|exact Hend].
Defined.

(** C5 as first stated, with [overlap < chunk_size] only, fails for a negative
    overlap: the windows then leave gaps, so the text is not rebuilt and the
    last window ends before the end of the text. *)
Lemma chunk_text_negative_overlap_gap :
  -1 < 2
  /\ chunk_text "abcdef" 2 (-1) = ["ab"; "de"]
  /\ nonoverlapping_concat 2 (-1) (chunk_text "abcdef" 2 (-1)) = "abde"
  /\ nonoverlapping_concat 2 (-1) (chunk_text "abcdef" 2 (-1)) <> "abcdef"
  /\ last_window_end "abcdef" 2 (-1) = 5
  /\ last_window_end "abcdef" 2 (-1) < PyStr.len "abcdef".
Proof.
  repeat split; try reflexivity. discriminate.
Qed.

(** ** The candidate list *)

Lemma filter_other_count (model : string) (l : list string) :
  count_occ string_dec (filter (fun m => negb (m =? model)%string) l) model
  = 0%nat.
Proof.
  apply count_occ_not_In. intros Hin. apply filter_In in Hin.
  destruct Hin as [_ Hne]. now rewrite String.eqb_refl in Hne.
Qed.

Lemma models_to_try_NoDup (model : string) (fallback_models : list string) :
  NoDup fallback_models -> NoDup (models_to_try model fallback_models).
Proof.
  intros Hnd. unfold models_to_try. simpl. constructor.
  - intros Hin. apply filter_In in Hin. destruct Hin as [_ Hne].
    now rewrite String.eqb_refl in Hne.
  - now apply NoDup_filter.
Qed.

(** C4.  The candidate list is the requested model followed by the fallback
    entries that differ from it, in their order: the requested model is its
    first element and occurs in it exactly once, also when the fallback list
    names it (any number of times), and the other fallback entries are all
    kept. *)
Theorem models_to_try_requested_first (model : string)
        (fallback_models : list string) :
  models_to_try model fallback_models
  = model :: filter (fun m => negb (m =? model)%string) fallback_models
  /\ hd_error (models_to_try model fallback_models) = Some model
  /\ count_occ string_dec (models_to_try model fallback_models) model = 1%nat
  /\ (forall m,
        m <> model ->
        count_occ string_dec (models_to_try model fallback_models) m
        = count_occ string_dec fallback_models m)
  /\ models_to_try model FALLBACK_MODELS
     = model :: filter (fun m => negb (m =? model)%string) FALLBACK_MODELS.
Proof.
  repeat split.
  - unfold models_to_try. simpl.
    destruct (string_dec model model) as [_|Hne]; [|congruence].
    now rewrite filter_other_count.
  - intros m Hne. unfold models_to_try. simpl.
    destruct (string_dec model m) as [Heq|_]; [congruence|].
    induction fallback_models as [|x l IH]; simpl; [reflexivity|].
    destruct (String.eqb_spec x model) as [->|Hx]; simpl.
    + destruct (string_dec model m); [congruence|exact IH].
    + destruct (string_dec x m); [now rewrite IH|exact IH].
Qed.

(** ** Unfolding the monad *)

Lemma bind_run {T : Transport} {A B : Type} (m : Net T A) (k : A -> Net T B)
      (env : World T * list Event) :
  bind m k env = k (fst (m env)) (snd (m env)).
Proof. unfold bind. now destruct (m env). Qed.

Lemma attempt_run {T : Transport} (prompt attempt_model final : string)
      (last_error : option string) (w : World T) (log : list Event) :
  attempt prompt attempt_model final last_error (w, log)
  = let o := fst (post_generate T w attempt_model prompt) in
    (handlers attempt_model final (try_block o last_error),
     (snd (post_generate T w attempt_model prompt),
      (log ++ [EvGenerate attempt_model prompt o])%list)).
Proof.
  unfold attempt, bind, do_post, ret. simpl.
  now destruct (post_generate T w attempt_model prompt).
Qed.

(** Every execution of the loop is a run, and the log grows by the attempts
    of that run. *)
Lemma try_models_run {T : Transport} (prompt final : string)
      (remaining : list string) :
  forall (last_error : option string) (w : World T) (log : list Event)
         (exit : LoopExit) (w' : World T) (log' : list Event),
    try_models prompt final remaining last_error (w, log) = (exit, (w', log')) ->
    exists attempts,
      run final remaining last_error attempts exit
      /\ log' = (log ++ map (generate_event prompt) attempts)%list.
Proof.
  induction remaining as [|m rest IH]; intros last_error w log exit w' log' H.
  - simpl in H. unfold ret in H. inversion H; subst.
    exists []. split; [constructor|now rewrite app_nil_r].
  - simpl in H. rewrite bind_run, attempt_run in H. simpl in H.
    set (o := fst (post_generate T w m prompt)) in *.
    destruct (handlers m final (try_block o last_error)) as [ans|msg|le] eqn:Hs.
    + unfold ret in H. inversion H; subst.
      exists [(m, o)]. split; [now apply run_return|reflexivity].
    + unfold ret in H. inversion H; subst.
      exists [(m, o)]. split; [now apply run_raise|reflexivity].
    + apply IH in H. destruct H as (attempts & Hrun & ->).
      exists ((m, o) :: attempts). split.
      * now apply run_continue with (last_error' := le).
      * rewrite <- app_assoc. reflexivity.
Qed.

(** ** Substring tests *)

Lemma lower_app (s1 s2 : string) :
  PyStr.lower (s1 ++ s2) = PyStr.lower s1 ++ PyStr.lower s2.
Proof. induction s1 as [|c s1 IH]; simpl; [reflexivity|]. now rewrite IH. Qed.

Lemma prefix_app (needle rest : string) : prefix needle (needle ++ rest) = true.
Proof.
  induction needle as [|c needle IH]; simpl.
  - now destruct rest.
  - destruct (ascii_dec c c); [exact IH|congruence].
Qed.

Lemma prefix_inv (needle hay : string) :
  prefix needle hay = true -> exists rest, hay = needle ++ rest.
Proof.
  revert hay. induction needle as [|c needle IH]; intros hay H.
  - exists hay. reflexivity.
  - destruct hay as [|x hay]; simpl in H; [discriminate|].
    destruct (ascii_dec c x) as [->|]; [|discriminate].
    destruct (IH hay H) as [rest ->]. now exists rest.
Qed.

Lemma contains_nil (needle : string) :
  PyStr.contains needle "" = prefix needle "".
Proof. simpl. apply orb_false_r. Qed.

Lemma contains_cons (needle : string) (x : ascii) (hay : string) :
  PyStr.contains needle (String x hay)
  = prefix needle (String x hay) || PyStr.contains needle hay.
Proof. reflexivity. Qed.

(** [needle in hay] holds exactly when [hay] is some text, [needle], and
    some more text. *)
Lemma contains_spec (needle hay : string) :
  PyStr.contains needle hay = true
  <-> exists before after, hay = before ++ needle ++ after.
Proof.
  split.
  - induction hay as [|x hay IH]; intros H.
    + rewrite contains_nil in H. destruct (prefix_inv _ _ H) as [rest E].
      exists "", rest. exact E.
    + rewrite contains_cons in H. apply orb_true_iff in H. destruct H as [H|H].
      * destruct (prefix_inv _ _ H) as [rest E]. exists "", rest. exact E.
      * destruct (IH H) as (before & after & ->).
        now exists (String x before), after.
  - intros (before & after & ->).
    induction before as [|x before IH].
    + change ("" ++ needle ++ after) with (needle ++ after).
      destruct (needle ++ after) as [|y rest] eqn:E.
      * rewrite contains_nil, <- E. apply prefix_app.
      * rewrite contains_cons, <- E, prefix_app. reflexivity.
    + change (String x before ++ needle ++ after)
        with (String x (before ++ needle ++ after)).
      rewrite contains_cons, IH. apply orb_true_r.
Qed.

(** A needle whose first character does not occur in the text is not in it. *)
Lemma contains_absent (c : ascii) (needle hay : string) :
  PyStr.all_chars (fun x => negb (Ascii.eqb x c)) hay = true ->
  PyStr.contains (String c needle) hay = false.
Proof.
  induction hay as [|x hay IH]; intros H; [reflexivity|].
  simpl in H. apply andb_true_iff in H. destruct H as [Hx Hrest].
  rewrite contains_cons, (IH Hrest), orb_false_r. simpl.
  destruct (ascii_dec c x) as [->|]; [|reflexivity].
  now rewrite Ascii.eqb_refl in Hx.
Qed.

Lemma all_chars_impl (p q : ascii -> bool) (s : string) :
  (forall c, p c = true -> q c = true) ->
  PyStr.all_chars p s = true -> PyStr.all_chars q s = true.
Proof.
  intros Hpq. induction s as [|c s IH]; simpl; [reflexivity|].
  intros H. apply andb_true_iff in H. destruct H as [Hc Hs].
  now rewrite (Hpq c Hc), (IH Hs).
Qed.

Lemma lower_fixed (s : string) :
  PyStr.all_chars (fun c => Ascii.eqb (PyStr.lower_char c) c) s = true ->
  PyStr.lower s = s.
Proof.
  induction s as [|c s IH]; simpl; [reflexivity|].
  intros H. apply andb_true_iff in H. destruct H as [Hc Hs].
  apply Ascii.eqb_eq in Hc. now rewrite Hc, (IH Hs).
Qed.

(** ** Decimal numerals *)

Lemma string_of_uint_numeral (d : Decimal.uint) :
  PyStr.all_chars PyStr.numeral_char (NilEmpty.string_of_uint d) = true.
Proof. induction d; simpl; auto. Qed.

Lemma of_Z_numeral (n : Z) : PyStr.all_chars PyStr.numeral_char (PyStr.of_Z n) = true.
Proof.
  unfold PyStr.of_Z, NilZero.string_of_int, NilZero.string_of_uint.
  destruct (Z.to_int n) as [d|d]; destruct d; simpl;
    auto using string_of_uint_numeral.
Qed.

Lemma of_nat_numeral (n : nat) : PyStr.all_chars PyStr.numeral_char (PyStr.of_nat n) = true.
Proof.
  unfold PyStr.of_nat, NilZero.string_of_uint.
  destruct (Nat.to_uint n); simpl; auto using string_of_uint_numeral.
Qed.

Lemma numeral_char_cases (c : ascii) :
  PyStr.numeral_char c = true ->
  Ascii.eqb (PyStr.lower_char c) c = true
  /\ negb (Ascii.eqb c "u") = true
  /\ negb (Ascii.eqb c "b") = true
  /\ negb (Ascii.eqb c "_") = true.
Proof.
  destruct c as [[] [] [] [] [] [] [] []]; vm_compute; intros H;
    try discriminate H; repeat split.
Qed.

(** The bare status line is never taken for a memory error. *)
Lemma status_line_not_memory (n : Z) :
  is_memory_error ("Ollama returned status " ++ PyStr.of_Z n) = false.
Proof.
  pose proof (of_Z_numeral n) as Hn.
  unfold is_memory_error. rewrite lower_app.
  rewrite (lower_fixed (PyStr.of_Z n))
    by (revert Hn; apply all_chars_impl; intros c Hc;
        apply numeral_char_cases, Hc).
  assert (Hu : PyStr.contains "unable to allocate" (PyStr.of_Z n) = false).
  { apply contains_absent. revert Hn. apply all_chars_impl.
    intros c Hc. apply numeral_char_cases, Hc. }
  assert (Hb : PyStr.contains "buffer" (PyStr.of_Z n) = false).
  { apply contains_absent. revert Hn. apply all_chars_impl.
    intros c Hc. apply numeral_char_cases, Hc. }
  destruct (PyStr.of_Z n) as [|c d] eqn:E.
  - reflexivity.
  - cbn -[PyStr.contains]. cbn in *.
    cbn in Hu, Hb. rewrite Hu, Hb. reflexivity.
Qed.

(** ** The fallback loop *)

(** When the non-200 branch takes the memory path, it has just recorded an
    error of this very response. *)
Lemma error_of_response_memory (r : Response) (last_error : option string) :
  is_memory_error (fst (error_of_response r last_error)) = true ->
  snd (error_of_response r last_error) = observed_error r
  /\ exists e, observed_error r = Some e.
Proof.
  unfold observed_error, error_of_response.
  destruct (json r) as [d|msg]; [|simpl; eauto].
  destruct (dict_get "error" (fields d)) as [e|]; [simpl; eauto|].
  intros H. cbn [fst] in H. now rewrite status_line_not_memory in H.
Qed.

Lemma requested_models_generate (prompt : string)
      (attempts : list (string * PostOutcome)) :
  requested_models (map (generate_event prompt) attempts) = map fst attempts.
Proof.
  induction attempts as [|x attempts IH]; simpl; [reflexivity|].
  now rewrite IH.
Qed.

Lemma requested_models_app (log1 log2 : list Event) :
  requested_models (log1 ++ log2)
  = (requested_models log1 ++ requested_models log2)%list.
Proof. unfold requested_models. now rewrite flat_map_app. Qed.

(** On the model with the final name only the memory path lets the loop
    go on. *)
Lemma final_step_continue (m : string) (o : PostOutcome)
      (last_error last_error' : option string) :
  handlers m m (try_block o last_error) = StepContinue last_error' ->
  exists r,
    o = PostResponse r
    /\ status_code r <> 200
    /\ is_memory_error (fst (error_of_response r last_error)) = true
    /\ last_error' = snd (error_of_response r last_error).
Proof.
  unfold handlers.
  destruct (try_block o last_error) as [ans|le| |le|msg] eqn:Ht;
    rewrite ?String.eqb_refl; cbn [negb]; try discriminate.
  intros H. inversion H; subst le. clear H.
  destruct o as [| |msg|r]; unfold try_block in Ht; try discriminate.
  exists r. split; [reflexivity|].
  destruct (Z.eqb_spec (status_code r) 200) as [H200|H200].
  - destruct (json r) as [d|msg]; [|discriminate].
    destruct (dict_get "response" (fields d)); discriminate.
  - destruct (error_of_response r last_error) as [error_msg le1].
    destruct (is_memory_error error_msg) eqn:Hmem; [|discriminate].
    inversion Ht; subst. auto.
Qed.

Lemma error_of_response_fst (r : Response) (le1 le2 : option string) :
  fst (error_of_response r le1) = fst (error_of_response r le2).
Proof.
  unfold error_of_response. destruct (json r) as [d|msg]; [|reflexivity].
  now destruct (dict_get "error" (fields d)).
Qed.

Section Runs.

Variable final : string.

(** The attempts of a run go through the candidates in order. *)
Lemma run_models remaining last_error attempts exit :
  run final remaining last_error attempts exit ->
  map fst attempts = firstn (List.length attempts) remaining.
Proof.
  induction 1 as [le|m rest le o ans Hs|m rest le o msg Hs
                  |m rest le o le' attempts exit Hs Hrun IH];
    simpl; try reflexivity.
  now rewrite IH.
Qed.

(** A run that exhausts the candidates has tried each of them. *)
Lemma run_exhausted_models remaining last_error attempts last_error' :
  run final remaining last_error attempts (LoopExhausted last_error') ->
  map fst attempts = remaining.
Proof.
  remember (LoopExhausted last_error') as exit eqn:E.
  induction 1 as [le|m rest le o ans Hs|m rest le o msg Hs
                  |m rest le o le' attempts exit Hs Hrun IH];
    try discriminate; simpl; [reflexivity|].
  now rewrite (IH E).
Qed.


(** A response that carries the result field ends the run at once, with that
    result. *)
Lemma run_success remaining last_error attempts exit m r answer :
  run final remaining last_error attempts exit ->
  In (m, PostResponse r) attempts ->
  success_with r answer ->
  exit = LoopReturn answer
  /\ exists before, attempts = (before ++ [(m, PostResponse r)])%list.
Proof.
  intros Hrun Hin (Hstatus & data & Hjson & Hget).
  assert (Hstep : forall m' le,
             handlers m' final (try_block (PostResponse r) le)
             = StepReturn answer).
  { intros m' le. simpl. rewrite Hstatus. simpl. now rewrite Hjson, Hget. }
  induction Hrun as [le|m0 rest le o ans Hs|m0 rest le o msg Hs
                     |m0 rest le o le' attempts exit Hs Hrun IH].
  - destruct Hin.
  - destruct Hin as [E|[]]. inversion E; subst. rewrite Hstep in Hs.
    inversion Hs; subst. split; [reflexivity|]. now exists [].
  - destruct Hin as [E|[]]. inversion E; subst. rewrite Hstep in Hs.
    discriminate Hs.
  - destruct Hin as [E|Hin].
    + inversion E; subst. rewrite Hstep in Hs. discriminate Hs.
    + destruct (IH Hin) as (-> & before & ->).
      split; [reflexivity|]. now exists ((m0, o) :: before).
Qed.

(** A timeout on a model whose name is not the final name lets the loop go
    on; on a model with the final name it ends the run with the timeout
    error. *)
Lemma run_timeout remaining last_error before m after exit :
  run final remaining last_error (before ++ (m, PostTimeout) :: after)%list exit ->
  (m <> final ->
   after <> [] \/ exists last_error', exit = LoopExhausted last_error')
  /\ (m = final -> after = [] /\ exit = LoopRaise TIMEOUT_ERROR).
Proof.
  revert remaining last_error.
  induction before as [|x before IH]; intros remaining last_error Hrun.
  - simpl in Hrun.
    inversion Hrun as [|? ? ? ? ans Hs|? ? ? ? msg Hs
                       |? ? ? ? le' ? ? Hs Hrest]; subst;
      simpl in Hs; destruct (String.eqb_spec m final) as [Heq|Hne];
      simpl in Hs; try discriminate Hs.
    + inversion Hs; subst. split; [congruence|]. intros _. now split.
    + split; [|congruence]. intros _.
      destruct after as [|y after]; [|left; discriminate].
      right. inversion Hrest; subst. eauto.
  - simpl in Hrun.
    inversion Hrun as [|? ? ? ? ans Hs|? ? ? ? msg Hs
                       |? ? ? ? le' ? ? Hs Hrest]; subst.
    + destruct before; discriminate.
    + destruct before; discriminate.
    + eapply IH. eassumption.
Qed.

(** A run that exhausts candidates ending in the final name ends on a
    non-200 response taken for a memory error, and the error it carries is
    the one left in [last_error]. *)
Lemma run_exhausted_last remaining last_error attempts last_error' :
  run final remaining last_error attempts (LoopExhausted last_error') ->
  remaining <> [] ->
  last remaining "" = final ->
  exists before r e,
    attempts = (before ++ [(final, PostResponse r)])%list
    /\ status_code r <> 200
    /\ is_memory_error (fst (error_of_response r None)) = true
    /\ observed_error r = Some e
    /\ last_error' = Some e.
Proof.
  remember (LoopExhausted last_error') as exit eqn:E.
  induction 1 as [le|m rest le o ans Hs|m rest le o msg Hs
                  |m rest le o le' attempts exit Hs Hrun IH];
    try discriminate; intros Hne Hlast; [congruence|].
  destruct rest as [|m' rest'].
  - simpl in Hlast. subst m. inversion Hrun; subst.
    match goal with H : LoopExhausted _ = LoopExhausted _ |- _ =>
      inversion H; subst end.
    destruct (final_step_continue _ _ _ _ Hs) as (r & -> & H200 & Hmem & Hle).
    destruct (error_of_response_memory r le Hmem) as (Hobs & e & He).
    exists [], r, e. repeat split; try assumption.
    + now rewrite (error_of_response_fst r None le).
    + congruence.
  - destruct (IH E) as (before & r & e & -> & H1 & H2 & H3 & H4).
    + discriminate.
    + exact Hlast.
    + exists ((m, o) :: before), r, e. repeat split; assumption.
Qed.

End Runs.

(** ** The model invocation client *)

(** What a call of [query_ollama] amounts to: a run over the candidate list
    and, when the run exhausts it, one request for the installed models. *)
Lemma query_ollama_run {T : Transport} (prompt model : string)
      (fallback_models : list string) (w : World T)
      (r : result string) (w' : World T) (log : list Event) :
  query_ollama prompt model fallback_models (w, []) = (r, (w', log)) ->
  exists attempts exit w1,
    try_models prompt (last (models_to_try model fallback_models) "")
               (models_to_try model fallback_models) None (w, [])
    = (exit, (w1, map (generate_event prompt) attempts))
    /\ run (last (models_to_try model fallback_models) "")
           (models_to_try model fallback_models) None attempts exit
    /\ match exit with
       | LoopReturn answer =>
           r = Ok answer /\ w' = w1
           /\ log = map (generate_event prompt) attempts
       | LoopRaise msg =>
           r = Raise msg /\ w' = w1
           /\ log = map (generate_event prompt) attempts
       | LoopExhausted last_error =>
           r = Raise (error_suggestion last_error
                                       (available_of (fst (get_tags T w1))))
           /\ w' = snd (get_tags T w1)
           /\ log = (map (generate_event prompt) attempts
                     ++ [EvTags (fst (get_tags T w1))])%list
       end.
Proof.
  unfold query_ollama. rewrite bind_run.
  destruct (try_models prompt (last (models_to_try model fallback_models) "")
                       (models_to_try model fallback_models) None (w, []))
    as [exit [w1 log1]] eqn:Hloop.
  destruct (try_models_run _ _ _ _ _ _ _ _ _ Hloop) as (attempts & Hrun & Hlog).
  simpl in Hlog. subst log1. intros H.
  exists attempts, exit, w1. split; [reflexivity|]. split; [exact Hrun|].
  destruct exit as [answer|msg|last_error]; simpl in H.
  - unfold ret in H. inversion H; subst. auto.
  - unfold ret in H. inversion H; subst. auto.
  - unfold get_available_models in H. rewrite !bind_run in H.
    unfold do_tags, ret in H. simpl in H.
    destruct (get_tags T w1) as [o w2]. simpl in *.
    inversion H; subst. auto.
Qed.



(** A response that carries the result field is returned at once: the call
    returns its result and sends nothing after it. *)
Lemma success_returns_immediately {T : Transport} (prompt model : string)
      (fallback_models : list string) (w : World T)
      (r : result string) (w' : World T) (log : list Event)
      (m p : string) (resp : Response) (answer : string) :
  query_ollama prompt model fallback_models (w, []) = (r, (w', log)) ->
  In (EvGenerate m p (PostResponse resp)) log ->
  success_with resp answer ->
  r = Ok answer
  /\ (exists before, log = (before ++ [EvGenerate m p (PostResponse resp)])%list)
  /\ requested_models log
     = firstn (List.length log) (models_to_try model fallback_models).
Proof.
  intros Hq Hin Hok.
  destruct (query_ollama_run _ _ _ _ _ _ _ Hq)
    as (attempts & exit & w1 & _ & Hrun & Hexit).
  assert (Hin' : In (m, PostResponse resp) attempts /\ p = prompt).
  { assert (Hgen : In (EvGenerate m p (PostResponse resp))
                      (map (generate_event prompt) attempts)).
    { destruct exit; destruct Hexit as (_ & _ & ->); try exact Hin.
      apply in_app_or in Hin. destruct Hin as [Hin|[Hin|[]]];
        [exact Hin|discriminate]. }
    apply in_map_iff in Hgen. destruct Hgen as ([m0 o] & E & Hin0).
    unfold generate_event in E. simpl in E. inversion E; subst. auto. }
  destruct Hin' as [Hin' ->].
  destruct (run_success _ _ _ _ _ _ _ _ Hrun Hin' Hok) as (-> & before & Hatt).
  destruct Hexit as (-> & _ & ->).
  split; [reflexivity|]. split.
  - exists (map (generate_event prompt) before).
    rewrite Hatt, map_app. reflexivity.
  - rewrite requested_models_generate, length_map.
    exact (run_models _ _ _ _ _ Hrun).
Qed.

(** Where a generate request sits in the log of a call, it sits in the run:
    the entries before it and after it are those of the attempts before and
    after, and only the request for the installed models can follow them. *)
Lemma log_split_at_generate (prompt : string)
      (attempts : list (string * PostOutcome)) (tail before after : list Event)
      (m p : string) (o : PostOutcome) :
  (tail = [] \/ exists t, tail = [EvTags t]) ->
  (before ++ EvGenerate m p o :: after)%list
  = (map (generate_event prompt) attempts ++ tail)%list ->
  exists b a,
    attempts = (b ++ (m, o) :: a)%list
    /\ before = map (generate_event prompt) b
    /\ after = (map (generate_event prompt) a ++ tail)%list.
Proof.
  intros Htail. revert before.
  induction attempts as [|[m0 o0] attempts IH]; intros before Hlog.
  - simpl in Hlog. destruct Htail as [->|(t & ->)].
    + destruct before; discriminate.
    + destruct before as [|? [|? ?]]; discriminate.
  - destruct before as [|e before]; simpl in Hlog.
    + inversion Hlog; subst. now exists [], attempts.
    + inversion Hlog as [[He Hrest]]. subst e.
      destruct (IH before Hrest) as (b & a & -> & -> & ->).
      now exists ((m0, o0) :: b), a.
Qed.

(** The log of a call is the log of its run, followed by the request for the
    installed models exactly when the run exhausted the candidates. *)
Lemma query_ollama_log {T : Transport} (prompt model : string)
      (fallback_models : list string) (w : World T)
      (r : result string) (w' : World T) (log : list Event) :
  query_ollama prompt model fallback_models (w, []) = (r, (w', log)) ->
  exists attempts exit tail,
    run (last (models_to_try model fallback_models) "")
        (models_to_try model fallback_models) None attempts exit
    /\ log = (map (generate_event prompt) attempts ++ tail)%list
    /\ ((tail = []
         /\ ((exists answer, exit = LoopReturn answer /\ r = Ok answer)
             \/ (exists msg, exit = LoopRaise msg /\ r = Raise msg)))
        \/ (exists t le, tail = [EvTags t] /\ exit = LoopExhausted le)).
Proof.
  intros Hq.
  destruct (query_ollama_run _ _ _ _ _ _ _ Hq)
    as (attempts & exit & w1 & _ & Hrun & Hexit).
  destruct exit as [answer|msg|le]; destruct Hexit as (-> & _ & ->).
  - exists attempts, (LoopReturn answer), []. rewrite app_nil_r.
    split; [exact Hrun|]. split; [reflexivity|]. left. eauto.
  - exists attempts, (LoopRaise msg), []. rewrite app_nil_r.
    split; [exact Hrun|]. split; [reflexivity|]. left. eauto.
  - eexists attempts, (LoopExhausted le), _.
    split; [exact Hrun|]. split; [reflexivity|]. right. eauto.
Qed.

(** What the code does on a timeout: it compares the name of the model that
    timed out with the name of the last candidate.  With a different name the
    next candidate is tried; with the same name the call raises the timeout
    error and sends nothing more. *)
Lemma timeout_follows_final_name {T : Transport} (prompt model : string)
      (fallback_models : list string) (w : World T)
      (r : result string) (w' : World T) (before after : list Event)
      (m p : string) :
  query_ollama prompt model fallback_models (w, [])
  = (r, (w', (before ++ EvGenerate m p PostTimeout :: after)%list)) ->
  (m <> last (models_to_try model fallback_models) "" ->
   exists m' o after', after = EvGenerate m' prompt o :: after')
  /\ (m = last (models_to_try model fallback_models) "" ->
      after = [] /\ r = Raise TIMEOUT_ERROR).
Proof.
  intros Hq.
  destruct (query_ollama_log _ _ _ _ _ _ _ Hq)
    as (attempts & exit & tail & Hrun & Hlog & Hexit).
  set (final := last (models_to_try model fallback_models) "") in *.
  assert (Htail : tail = [] \/ exists t, tail = [EvTags t]).
  { destruct Hexit as [[-> _]|(t & le & -> & _)]; eauto. }
  destruct (log_split_at_generate _ _ _ _ _ _ _ _ Htail Hlog)
    as (b & a & -> & -> & ->).
  destruct (run_timeout _ _ _ _ _ _ _ Hrun) as [Hother Hfinal].
  split.
  - intros Hne. destruct a as [|[m' o'] a'].
    + destruct (Hother Hne) as [Hnil|[le Hle]]; [congruence|]. subst exit.
      apply run_exhausted_models in Hrun.
      rewrite map_app in Hrun. simpl in Hrun.
      exfalso. apply Hne. unfold final. rewrite <- Hrun.
      now rewrite last_last.
    + do 3 eexists. reflexivity.
  - intros Heq. destruct (Hfinal Heq) as [-> ->].
    destruct Hexit as [(-> & [(ans & E & _)|(msg & E & ->)])
                      |(t & le & _ & E)];
      try discriminate E.
    inversion E; subst. auto.
Qed.

Lemma last_of_suffix (l l' : list string) :
  l' <> [] -> last (l ++ l') "" = last l' "".
Proof.
  intros Hne. induction l as [|x l IH]; [reflexivity|].
  simpl. destruct (l ++ l')%list eqn:E; [|exact IH].
  apply app_eq_nil in E. tauto.
Qed.

Lemma last_in (l : list string) : l <> [] -> In (last l "") l.
Proof.
  intros Hne. destruct (exists_last Hne) as (l' & z & ->).
  rewrite last_last. apply in_or_app. right. now left.
Qed.

(** With candidate names that are pairwise distinct, the name test is a test
    of position: a timeout before the last candidate is followed by a request
    to the next candidate, and a timeout on the last candidate raises the
    timeout error. *)
Lemma timeout_with_distinct_names {T : Transport} (prompt model : string)
      (fallback_models : list string) (w : World T)
      (r : result string) (w' : World T) (before after : list Event)
      (m p : string) :
  NoDup (models_to_try model fallback_models) ->
  query_ollama prompt model fallback_models (w, [])
  = (r, (w', (before ++ EvGenerate m p PostTimeout :: after)%list)) ->
  m = nth (List.length before) (models_to_try model fallback_models) ""
  /\ (List.length before < List.length (models_to_try model fallback_models))%nat
  /\ (S (List.length before)
      < List.length (models_to_try model fallback_models) ->
      exists o after',
        after
        = EvGenerate (nth (S (List.length before))
                          (models_to_try model fallback_models) "")
                     prompt o :: after')%nat
  /\ (S (List.length before)
      = List.length (models_to_try model fallback_models) ->
      after = [] /\ r = Raise TIMEOUT_ERROR).
Proof.
  intros Hnd Hq.
  destruct (timeout_follows_final_name _ _ _ _ _ _ _ _ _ _ Hq)
    as [Hother Hfinal].
  destruct (query_ollama_log _ _ _ _ _ _ _ Hq)
    as (attempts & exit & tail & Hrun & Hlog & Hexit).
  assert (Htail : tail = [] \/ exists t, tail = [EvTags t]).
  { destruct Hexit as [[-> _]|(t & le & -> & _)]; eauto. }
  destruct (log_split_at_generate _ _ _ _ _ _ _ _ Htail Hlog)
    as (b & a & -> & -> & ->).
  pose proof (run_models _ _ _ _ _ Hrun) as Hmodels.
  set (cands := models_to_try model fallback_models) in *.
  rewrite length_map.
  assert (Hcands : cands
                   = (map fst b ++ m :: map fst a
                        ++ skipn (List.length (b ++ (m, PostTimeout) :: a))
                                 cands)%list).
  { rewrite <- (firstn_skipn (List.length (b ++ (m, PostTimeout) :: a)) cands)
      at 1.
    rewrite <- Hmodels, map_app. simpl. now rewrite <- app_assoc. }
  remember (map fst a
              ++ skipn (List.length (b ++ (m, PostTimeout) :: a)) cands)%list
    as rest eqn:Hrest.
  assert (Hlen : List.length cands
                 = (List.length b + S (List.length rest))%nat).
  { rewrite Hcands at 1. rewrite length_app, length_map. reflexivity. }
  assert (Hnth : nth (List.length b) cands "" = m).
  { rewrite Hcands. rewrite app_nth2; rewrite length_map; [|lia].
    now rewrite Nat.sub_diag. }
  split; [now rewrite Hnth|]. split; [lia|]. split.
  - intros Hlt.
    assert (Hne : m <> last cands "").
    { intros Heq.
      destruct rest as [|x rest']; [cbn [List.length] in Hlen; lia|].
      rewrite Hcands in Hnd. apply NoDup_remove_2 in Hnd.
      apply Hnd. apply in_or_app. right.
      rewrite Heq, Hcands.
      change (m :: x :: rest') with ([m] ++ x :: rest')%list.
      rewrite app_assoc, last_of_suffix by discriminate.
      apply last_in. discriminate. }
    destruct (Hother Hne) as (m' & o & after' & Hafter).
    exists o, after'. rewrite Hafter. do 2 f_equal.
    destruct a as [|[m1 o1] a']; simpl in Hafter.
    + destruct Htail as [->|(t & ->)]; discriminate.
    + inversion Hafter; subst. rewrite Hcands.
      rewrite app_nth2; rewrite length_map; [|lia].
      replace (S (List.length b) - List.length b)%nat with 1%nat by lia.
      reflexivity.
  - intros Heq. apply Hfinal.
    assert (rest = [])
      by (destruct rest; [reflexivity|cbn [List.length] in Hlen; lia]).
    subst rest. rewrite Hcands, H. now rewrite last_last.
Qed.

(** The specification's test run: the first candidate times out, the second
    answers, and the third is never contacted. *)
Example timeout_then_success :
  query_ollama (T := scripted TagsError) "q" "a" ["b"; "c"]
               ([PostTimeout; model_reply; model_reply], [])
  = (Ok "An endofunctor with structure.",
     ([model_reply],
      [EvGenerate "a" "q" PostTimeout; EvGenerate "b" "q" model_reply])).
Proof. reflexivity. Qed.

(** C3, at the input where the code departs from it.  The candidates are
    [a; b; b]; the first two requests time out and the third would succeed.
    The second time-out is on a model named like the last candidate, so the
    code raises the timeout error although a candidate remains, and the third
    candidate is never contacted. *)
Theorem timeout_on_repeated_name_gives_up :
  models_to_try "a" ["b"; "b"] = ["a"; "b"; "b"]
  /\ query_ollama (T := scripted TagsError) "q" "a" ["b"; "b"]
                  ([PostTimeout; PostTimeout;
                    PostResponse (json_response 200 [("response", "hi")])], [])
     = (Raise TIMEOUT_ERROR,
        ([PostResponse (json_response 200 [("response", "hi")])],
         [EvGenerate "a" "q" PostTimeout; EvGenerate "b" "q" PostTimeout])).
Proof. split; reflexivity. Qed.

(** Matching a status on the literal [200] is the test [status == 200]. *)
Lemma match_status_200 {A : Type} (status : Z) (a b : A) :
  match status with
  | 200 => a
  | _ => b
  end = if status =? 200 then a else b.
Proof.
  destruct status as [|p|p]; try reflexivity.
  do 8 (destruct p as [p|p|]; try reflexivity).
Qed.

(** The installed names are those of a status-200 answer whose body has a
    ["models"] list; every other outcome of the request gives no name. *)
Lemma available_of_cases (o : TagsOutcome) :
  available_of o
  = match o with
    | TagsResponse 200 (Ok {| models := Some entries |}) =>
        map (fun entry => match entry with
                          | Some name => name
                          | None => ""
                          end) entries
    | _ => []
    end.
Proof.
  destruct o as [|status body]; [reflexivity|].
  rewrite match_status_200. unfold available_of.
  destruct (status =? 200); cbn [negb]; [|reflexivity].
  destruct body as [[[entries|]]|msg]; reflexivity.
Qed.

(** C8.  When the loop of [query_ollama] runs out of candidates, every
    candidate has been requested once, in order, and the last one answered
    with a non-200 response taken for a memory or buffer error.  The last
    observed error [e] is read off that response: its ["error"] field when
    the body is a JSON object, and the status line followed by the first 200
    characters of the body when the body is not JSON.  The call then asks for
    the installed models, which are the names of a status-200 answer with a
    ["models"] list and no names at all in every other case, and raises one
    composite error whose text is given in full: the last observed error, the
    two fixed remediation lines, and a third line that lists the first five
    installed names, or advises to install a small model when there is none. *)
Theorem exhausted_candidates_raise_composite_error
        {T : Transport} (prompt model : string) (fallback_models : list string)
        (w w1 : World T) (log1 : list Event) (last_error : option string) :
  try_models prompt (last (models_to_try model fallback_models) "")
             (models_to_try model fallback_models) None (w, [])
  = (LoopExhausted last_error, (w1, log1)) ->
  exists (e : string) (r : Response) (before : list Event)
         (available : list string),
    last_error = Some e
    /\ requested_models log1 = models_to_try model fallback_models
    /\ log1 = (before
               ++ [EvGenerate (last (models_to_try model fallback_models) "")
                              prompt (PostResponse r)])%list
    /\ status_code r <> 200
    /\ match json r with
       | Ok error_data =>
           dict_get "error" (fields error_data) = Some e
           /\ is_memory_error
                ("Ollama returned status " ++ PyStr.of_Z (status_code r)
                   ++ ": " ++ e) = true
       | Raise _ =>
           e = "Ollama returned status " ++ PyStr.of_Z (status_code r)
                 ++ ": " ++ PyStr.take (text r) 200
           /\ is_memory_error e = true
       end
    /\ available
       = match fst (get_tags T w1) with
         | TagsResponse 200 (Ok {| models := Some entries |}) =>
             map (fun entry => match entry with
                               | Some name => name
                               | None => ""
                               end) entries
         | _ => []
         end
    /\ query_ollama prompt model fallback_models (w, [])
       = (Raise ("All models failed. Last error: " ++ e ++ "

Try:
1. Restart Ollama: Close and run 'ollama serve' again
2. Free up RAM: Close other applications
" ++ match available with
     | [] => "3. Install a smaller model: 'ollama pull tinyllama'
"
     | _ :: _ =>
         "3. Available models: " ++ String.concat ", " (firstn 5 available) ++ "
"
     end),
          (snd (get_tags T w1),
           (log1 ++ [EvTags (fst (get_tags T w1))])%list)).
Proof.
  intros Hloop.
  destruct (try_models_run _ _ _ _ _ _ _ _ _ Hloop) as (attempts & Hrun & Hlog).
  simpl in Hlog. subst log1.
  destruct (run_exhausted_last _ _ _ _ _ Hrun)
    as (b & r & e & Hatt & H200 & Hmem & Hobs & Hle).
  { unfold models_to_try. discriminate. }
  { reflexivity. }
  exists e, r, (map (generate_event prompt) b),
         (available_of (fst (get_tags T w1))).
  split; [exact Hle|].
  split.
  { rewrite requested_models_generate.
    exact (run_exhausted_models _ _ _ _ _ Hrun). }
  split; [rewrite Hatt, map_app; reflexivity|].
  split; [exact H200|].
  split.
  { unfold observed_error, error_of_response in Hmem, Hobs.
    destruct (json r) as [d|msg].
    - destruct (dict_get "error" (fields d)) as [v|]; cbn [fst snd] in Hmem, Hobs.
      + assert (He : e = v) by congruence.
        rewrite append_assoc in Hmem.
        split; [now rewrite He|rewrite He; exact Hmem].
      + now rewrite status_line_not_memory in Hmem.
    - cbn [fst snd] in Hmem, Hobs.
      assert (He : e = ("Ollama returned status "
                          ++ PyStr.of_Z (status_code r))
                         ++ ": " ++ PyStr.take (text r) 200) by congruence.
      rewrite append_assoc in He, Hmem.
      split; [exact He|rewrite He; exact Hmem]. }
  split.
  { apply available_of_cases. }
  unfold query_ollama. rewrite bind_run, Hloop. simpl.
  unfold get_available_models. rewrite !bind_run.
  unfold do_tags, ret. simpl.
  destruct (get_tags T w1) as [o w2]. simpl. now rewrite Hle.
Qed.

Lemma exhausted_candidates_witness :
  query_ollama
    (T := scripted
            (TagsResponse 200
               (Ok {| models := Some [Some "m1"; Some "m2"; None; Some "m4";
                                      Some "m5"; Some "m6"] |})))
    "q" "a" ["b"]
    ([PostResponse (json_response 500 [("error", "unable to allocate 4 GiB")]);
      PostResponse (json_response 507 [("error", "CUDA Buffer overflow")])],
     [])
  = (Raise "All models failed. Last error: CUDA Buffer overflow

Try:
1. Restart Ollama: Close and run 'ollama serve' again
2. Free up RAM: Close other applications
3. Available models: m1, m2, , m4, m5
",
     ([],
      [EvGenerate "a" "q"
         (PostResponse
            (json_response 500 [("error", "unable to allocate 4 GiB")]));
       EvGenerate "b" "q"
         (PostResponse
            (json_response 507 [("error", "CUDA Buffer overflow")]));
       EvTags
         (TagsResponse 200
            (Ok {| models := Some [Some "m1"; Some "m2"; None; Some "m4";
                                   Some "m5"; Some "m6"] |}))])).
Proof.
  destruct (exhausted_candidates_raise_composite_error
              (T := scripted
                      (TagsResponse 200
                         (Ok {| models := Some [Some "m1"; Some "m2"; None;
                                                Some "m4"; Some "m5";
                                                Some "m6"] |})))
              "q" "a" ["b"]
              [PostResponse
                 (json_response 500 [("error", "unable to allocate 4 GiB")]);
               PostResponse
                 (json_response 507 [("error", "CUDA Buffer overflow")])]
              [] _ _ eq_refl)
    as (e & r & before & available & He & _ & _ & _ & _ & Hav & Hq).
  injection He as <-. cbn in Hav. subst available. exact Hq.
Defined.

(** ** Chunk ids *)

Lemma to_uint_nonnil (n : nat) : Nat.to_uint n <> Decimal.Nil.
Proof.
  intros H.
  pose proof (DecimalNat.Unsigned.to_of (Nat.to_uint n)) as Hn.
  rewrite DecimalNat.Unsigned.of_to in Hn. rewrite H in Hn. discriminate Hn.
Qed.

Lemma of_nat_inj (i j : nat) : PyStr.of_nat i = PyStr.of_nat j -> i = j.
Proof.
  unfold PyStr.of_nat. intros H.
  apply (f_equal NilZero.uint_of_string) in H.
  rewrite !NilZero.usu in H by apply to_uint_nonnil.
  inversion H. now apply DecimalNat.Unsigned.to_uint_inj.
Qed.

Lemma append_cancel_l (s x y : string) : s ++ x = s ++ y -> x = y.
Proof.
  induction s as [|c s IH]; simpl; intros H; [exact H|].
  inversion H. now apply IH.
Qed.

(** Within a file, different indices give different ids. *)
Lemma chunk_id_of_inj (filename : string) (i j : nat) :
  chunk_id_of filename i = chunk_id_of filename j -> i = j.
Proof.
  unfold chunk_id_of. intros H.
  apply append_cancel_l in H. apply (append_cancel_l "_") in H.
  now apply of_nat_inj.
Qed.

Lemma upload_ids_distinct (filename : string) (n : nat) :
  NoDup (map (chunk_id_of filename) (seq 0 n)).
Proof.
  apply Injective_map_NoDup; [|apply seq_NoDup].
  intros i j. apply chunk_id_of_inj.
Qed.

(** The records offered by an ingestion have the documented shape. *)
Lemma upload_batch_ingested (filename : string) (chunks : list string) :
  Forall ingested
         (batch chunks
                (map (chunk_id_of filename) (seq 0 (List.length chunks)))
                (map (chunk_metadata_of filename) (seq 0 (List.length chunks)))).
Proof.
  apply Forall_forall. intros c Hc. unfold batch in Hc.
  apply in_map_iff in Hc. destruct Hc as ([[i d] md] & <- & Hin).
  simpl. apply in_combine_l in Hin as Hid. apply in_combine_r in Hin as Hmd.
  apply in_combine_l in Hid.
  assert (Hzip : forall (l : list nat) i md d0 (ds : list string),
             In ((i, d0), md)
                (combine (combine (map (chunk_id_of filename) l) ds)
                         (map (chunk_metadata_of filename) l)) ->
             exists k, i = chunk_id_of filename k
                       /\ md = chunk_metadata_of filename k).
  { clear. induction l as [|k l IH]; intros i md d0 ds H.
    - destruct H.
    - destruct ds as [|d1 ds]; [destruct H|]. simpl in H.
      destruct H as [H|H].
      + inversion H; subst. now exists k.
      + eapply IH. exact H. }
  destruct (Hzip _ _ _ _ _ Hin) as (k & -> & ->).
  exists filename, k. split; reflexivity.
Qed.

Section StoreInvariant.

Variable E : Engine.
Hypothesis contract : AddContract E.

Lemma upload_keeps_store_ok (filename : string) (extracted : result string)
      (st : Store) :
  store_ok st -> store_ok (snd (upload_document E filename extracted st)).
Proof.
  intros [Hnd Hall]. unfold upload_document.
  destruct extracted as [text|msg]; [|now split].
  destruct (negb (PyStr.truthy (PyStr.strip text))); [now split|].
  destruct (chunk_text text default_chunk_size default_overlap)
    as [|c chunks] eqn:Hchunks; [now split|].
  set (n := List.length (c :: chunks)).
  destruct (add E st (c :: chunks) (map (chunk_id_of filename) (seq 0 n))
                (map (chunk_metadata_of filename) (seq 0 n)))
    as [r st'] eqn:Hadd.
  assert (Hok : store_ok st').
  { split.
    - eapply (add_distinct E contract); eauto using upload_ids_distinct.
    - apply (incl_Forall (add_stored E contract _ _ _ _ _ _ Hadd)).
      apply Forall_app. split; [exact Hall|].
      apply upload_batch_ingested. }
  now destruct r.
Qed.

Lemma run_ops_keeps_store_ok (ops : list StoreOp) (st : Store) :
  store_ok st -> store_ok (run_ops E st ops).
Proof.
  revert st. induction ops as [|op ops IH]; intros st Hst; [exact Hst|].
  simpl. apply IH. destruct op as [filename extracted|]; simpl.
  - now apply upload_keeps_store_ok.
  - split; constructor.
Qed.

End StoreInvariant.

(** ** The list engine honours the contracts *)

Lemma id_in_spec (i : string) (ids : list string) :
  id_in i ids = true <-> In i ids.
Proof.
  unfold id_in. rewrite existsb_exists. split.
  - intros (j & Hj & E). apply String.eqb_eq in E. now subst.
  - intros H. exists i. split; [exact H|apply String.eqb_refl].
Qed.

Lemma batch_id_in (docs ids : list string) (metas : list Metadata) (c : Chunk) :
  In c (batch docs ids metas) -> In (chunk_id c) ids.
Proof.
  unfold batch. intros H. apply in_map_iff in H.
  destruct H as ([[i d] md] & <- & Hin). simpl.
  apply in_combine_l in Hin. now apply in_combine_l in Hin.
Qed.

Lemma batch_ids_distinct (docs ids : list string) (metas : list Metadata) :
  NoDup ids -> NoDup (map chunk_id (batch docs ids metas)).
Proof.
  intros Hnd. revert docs metas.
  induction Hnd as [|i ids Hi Hnd IH]; intros docs metas; [constructor|].
  destruct docs as [|d docs]; [constructor|].
  destruct metas as [|md metas]; [constructor|].
  change (batch (d :: docs) (i :: ids) (md :: metas))
    with ({| chunk_id := i; chunk_document := d; chunk_metadata := md |}
            :: batch docs ids metas).
  simpl. constructor; [|apply IH].
  intros Hin. apply in_map_iff in Hin. destruct Hin as (c & <- & Hc).
  apply Hi. now apply batch_id_in in Hc.
Qed.

(** Dropping records keeps their keys distinct. *)
Lemma filter_keeps_keys_distinct (keep : Chunk -> bool) :
  forall records : Store,
    NoDup (map chunk_id records) ->
    NoDup (map chunk_id (filter keep records)).
Proof.
  intros records. induction records as [|c records IH]; simpl; intros H;
    [constructor|].
  inversion H as [|? ? Hc Hrest]; subst.
  destruct (keep c); simpl; [|now apply IH].
  constructor; [|now apply IH].
  intros Hin. apply Hc. apply in_map_iff in Hin.
  destruct Hin as (y & E & Hy). apply filter_In in Hy.
  apply in_map_iff. exists y. tauto.
Qed.

Lemma list_engine_add_contract : AddContract list_engine.
Proof.
  split.
  - intros st docs ids metas r st' H. simpl in H.
    destruct (distinct_ids ids); inversion H; subst.
    + apply incl_app; [apply incl_appl, incl_refl|].
      apply incl_appr. apply incl_filter.
    + apply incl_appl, incl_refl.
  - intros st docs ids metas r st' H Hst Hids. simpl in H.
    destruct (distinct_ids ids); inversion H; subst; [|exact Hst].
    rewrite map_app. apply NoDup_app.
    + exact Hst.
    + apply filter_keeps_keys_distinct. now apply batch_ids_distinct.
    + intros i Hi Hin. apply in_map_iff in Hin.
      destruct Hin as (c & <- & Hc). apply filter_In in Hc.
      destruct Hc as [_ Hc]. apply id_in_spec in Hi.
      now rewrite Hi in Hc.
Qed.

Lemma list_engine_query_contract : QueryContract list_engine.
Proof.
  split.
  - intros st question k results H. simpl in H. inversion H; subst.
    unfold retrieved. simpl. intros d Hd.
    rewrite <- (firstn_skipn (Z.to_nat k) (map chunk_document st)).
    apply in_or_app. now left.
  - intros question k. eexists. reflexivity.
Qed.

(** ** Ingestion *)

(** C9.  With an engine that honours the add contract, after any sequence of
    ingestions and clears on the fresh store no two stored chunks share an
    id, and every stored chunk has the id [<filename>_<index>] and the
    metadata [{source: filename, chunk: index}] of some file and index; the
    ids an ingestion offers are pairwise distinct and its records have that
    shape. *)
Theorem stored_chunk_ids_unique (E : Engine) (ops : list StoreOp) :
  AddContract E ->
  NoDup (map chunk_id (run_ops E [] ops))
  /\ Forall ingested (run_ops E [] ops)
  /\ (forall filename n, NoDup (map (chunk_id_of filename) (seq 0 n)))
  /\ (forall filename chunks,
         Forall ingested
           (batch chunks
              (map (chunk_id_of filename) (seq 0 (List.length chunks)))
              (map (chunk_metadata_of filename)
                   (seq 0 (List.length chunks))))).
Proof.
  intros contract.
  destruct (run_ops_keeps_store_ok E contract ops []) as [Hnd Hall].
  { split; constructor. }
  repeat split; auto using upload_ids_distinct, upload_batch_ingested.
Qed.

Lemma stored_chunk_ids_unique_witness :
  map chunk_id
      (run_ops list_engine []
               [OpUpload "a.pdf" (Ok "hello");
                OpUpload "a.pdf" (Ok "again");
                OpClear;
                OpUpload "b.pdf" (Ok "x");
                OpUpload "b.pdf" (Ok "y");
                OpUpload "c.pdf" (Ok "z")])
  = ["b.pdf_0"; "c.pdf_0"]
  /\ NoDup (map chunk_id
                (run_ops list_engine []
                         [OpUpload "a.pdf" (Ok "hello");
                          OpUpload "a.pdf" (Ok "again");
                          OpClear;
                          OpUpload "b.pdf" (Ok "x");
                          OpUpload "b.pdf" (Ok "y");
                          OpUpload "c.pdf" (Ok "z")])).
Proof.
  split; [reflexivity|].
  exact (proj1 (stored_chunk_ids_unique list_engine _ list_engine_add_contract)).
Defined.

(** ** Question answering *)

(** Without a retrieved chunk the route answers at once and leaves the model
    server alone. *)
Lemma ask_question_nothing_retrieved {T : Transport} (E : Engine)
      (question : string) (st : Store) (results : QueryResult)
      (env : World T * list Event) :
  query E st question 3 = Ok results ->
  retrieved results = [] ->
  ask_question E question st env
  = (Http200 {| answer := NO_DOCUMENTS; sources := [] |}, env).
Proof.
  intros Hq Hr. unfold ask_question. rewrite Hq.
  unfold retrieved in Hr.
  destruct (documents results) as [[|[|d first] rest]|];
    try reflexivity; discriminate.
Qed.

(** With a retrieved chunk the route asks the model, with the prompt built
    from the retrieved chunks. *)
Lemma ask_question_retrieved {T : Transport} (E : Engine)
      (question : string) (st : Store) (results : QueryResult)
      (env : World T * list Event) :
  query E st question 3 = Ok results ->
  retrieved results <> [] ->
  ask_question E question st env
  = (match fst (query_ollama_default
                  (build_prompt
                     (PyStr.join (PyStr.nl ++ PyStr.nl) (retrieved results))
                     question) env) with
     | Raise error_msg => Http200 (error_answer error_msg)
     | Ok answer =>
         Http200 {| answer := answer; sources := sources_of results |}
     end,
     snd (query_ollama_default
            (build_prompt
               (PyStr.join (PyStr.nl ++ PyStr.nl) (retrieved results))
               question) env)).
Proof.
  intros Hq Hr. unfold ask_question. rewrite Hq.
  unfold retrieved in *.
  destruct (documents results) as [[|[|d first] rest]|]; try congruence.
  rewrite bind_run. cbv zeta.
  destruct (query_ollama_default _ env) as [[ans|msg] env']; reflexivity.
Qed.

Lemma sources_of_retrieved_metadata (results : QueryResult) :
  sources_of results = map source_of (retrieved_metadata results).
Proof.
  unfold sources_of, retrieved_metadata.
  now destruct (metadatas results) as [[|[|m first] rest]|].
Qed.

(** C7.  With an engine that honours the query contract, a question asked
    while the store holds no chunk gets the fixed "no documents" answer with
    no sources, and no request is sent to the model server: the world and the
    log are as before. *)
Theorem empty_store_short_circuits {T : Transport} (E : Engine)
        (question : string) (env : World T * list Event) :
  QueryContract E ->
  ask_question E question [] env
  = (Http200 {| answer := "No documents found. Please upload documents first.";
                sources := [] |}, env).
Proof.
  intros contract.
  destruct (query_empty E contract question 3) as [results Hq].
  apply (ask_question_nothing_retrieved E question [] results env Hq).
  apply incl_l_nil. exact (query_stored E contract _ _ _ _ Hq).
Qed.

Lemma empty_store_short_circuits_witness :
  ask_question (T := scripted TagsError) list_engine "What is a monad?" []
               ([PostResponse (json_response 200 [("response", "hi")])], [])
  = (Http200 {| answer := "No documents found. Please upload documents first.";
                sources := [] |},
     ([PostResponse (json_response 200 [("response", "hi")])], [])).
Proof.
  exact (empty_store_short_circuits (T := scripted TagsError) list_engine
           "What is a monad?"
           ([PostResponse (json_response 200 [("response", "hi")])], [])
           list_engine_query_contract).
Defined.

Lemma is_memory_error_spec (msg : string) :
  is_memory_error msg = true
  <-> (exists before after,
          PyStr.lower msg = before ++ "unable to allocate" ++ after)
      \/ (exists before after, PyStr.lower msg = before ++ "buffer" ++ after).
Proof.
  unfold is_memory_error. rewrite orb_true_iff, !contains_spec. reflexivity.
Qed.

(** C6.  When retrieval gives at least one chunk and the model invocation
    raises, the route returns a normal response with empty sources.  Its
    answer is the warning sign, the label, the raw error, a blank line and
    the remediation checklist, every line of which is given below: the
    "Quick fixes" checklist of four steps under the label "Memory Error"
    exactly when the lower-cased error text contains "unable to allocate" or
    "buffer", and the "Please check" checklist of two steps under the label
    "Error" otherwise. *)
Theorem model_failure_becomes_answer {T : Transport} (E : Engine)
        (question : string) (st : Store) (results : QueryResult)
        (env env' : World T * list Event) (error_msg : string) :
  query E st question 3 = Ok results ->
  retrieved results <> [] ->
  query_ollama_default
    (build_prompt (PyStr.join (PyStr.nl ++ PyStr.nl) (retrieved results))
                  question) env
  = (Raise error_msg, env') ->
  ask_question E question st env
  = (Http200
       {| answer :=
            if is_memory_error error_msg
            then "⚠️ Memory Error: " ++ error_msg ++ "

Quick fixes:
1. Restart Ollama: Close terminal running 'ollama serve', then run it again
2. Free up RAM: Close other applications
3. Try a smaller model: Run 'ollama pull tinyllama' then restart
4. Check available models: Visit http://localhost:8000/models"
            else "⚠️ Error: " ++ error_msg ++ "

Please check:
1. Is Ollama running? (Run 'ollama serve' in terminal)
2. Is a model installed? (Run 'ollama pull llama3.2:1b' or 'ollama pull tinyllama')";
          sources := [] |}, env')
  /\ (is_memory_error error_msg = true
      <-> (exists before after,
              PyStr.lower error_msg = before ++ "unable to allocate" ++ after)
          \/ (exists before after,
                 PyStr.lower error_msg = before ++ "buffer" ++ after)).
Proof.
  intros Hq Hr Hm.
  split; [|apply is_memory_error_spec].
  rewrite (ask_question_retrieved E question st results env Hq Hr).
  rewrite Hm. reflexivity.
Qed.

Lemma model_failure_becomes_answer_witness :
  ask_question (T := scripted TagsError) list_engine "What is a monad?"
               notes_store (repeat memory_failure 5, [])
  = (Http200
       {| answer := "⚠️ Memory Error: All models failed. Last error: Unable to allocate 2 GiB

Try:
1. Restart Ollama: Close and run 'ollama serve' again
2. Free up RAM: Close other applications
3. Install a smaller model: 'ollama pull tinyllama'


Quick fixes:
1. Restart Ollama: Close terminal running 'ollama serve', then run it again
2. Free up RAM: Close other applications
3. Try a smaller model: Run 'ollama pull tinyllama' then restart
4. Check available models: Visit http://localhost:8000/models";
          sources := [] |},
     ([],
      (map (fun m =>
              EvGenerate m
                (build_prompt
                   "A monad is a monoid in the category of endofunctors."
                   "What is a monad?")
                memory_failure)
           (models_to_try DEFAULT_MODEL FALLBACK_MODELS)
         ++ [EvTags TagsError])%list)).
Proof.
  refine (proj1
            (model_failure_becomes_answer
               (T := scripted TagsError) list_engine "What is a monad?"
               notes_store _ (repeat memory_failure 5, []) _ _
               eq_refl _ eq_refl)).
  discriminate.
Defined.

(** C10.  When retrieval gives documents but no metadata entry at all (the
    field is missing, or empty, or its first list is empty) and the model
    call succeeds, the route returns the model's answer with an empty list of
    sources. *)
Theorem answer_without_metadata {T : Transport} (E : Engine)
        (question : string) (st : Store) (results : QueryResult)
        (env env' : World T * list Event) (model_answer : string) :
  query E st question 3 = Ok results ->
  retrieved results <> [] ->
  retrieved_metadata results = [] ->
  query_ollama_default
    (build_prompt (PyStr.join (PyStr.nl ++ PyStr.nl) (retrieved results))
                  question) env
  = (Ok model_answer, env') ->
  ask_question E question st env
  = (Http200 {| answer := model_answer; sources := [] |}, env').
Proof.
  intros Hq Hr Hmeta Hm.
  rewrite (ask_question_retrieved E question st results env Hq Hr).
  rewrite Hm. simpl.
  now rewrite sources_of_retrieved_metadata, Hmeta.
Qed.

Lemma answer_without_metadata_witness :
  ask_question (T := scripted TagsError) documents_only_engine
               "What is a monad?" notes_store ([model_reply], [])
  = (Http200 {| answer := "An endofunctor with structure."; sources := [] |},
     ([],
      [EvGenerate DEFAULT_MODEL
         (build_prompt "A monad is a monoid in the category of endofunctors."
                       "What is a monad?")
         model_reply])).
Proof.
  refine (answer_without_metadata
            (T := scripted TagsError) documents_only_engine "What is a monad?"
            notes_store _ ([model_reply], []) _ _ eq_refl _ eq_refl eq_refl).
  discriminate.
Defined.

(** * Further properties *)

(** ** The chunker *)

(** X1.  With a non-negative chunk size no chunk is longer than the chunk
    size, and with a positive one no chunk is empty. *)
Theorem chunk_lengths_bounded (text : string) (chunk_size overlap : Z) :
  0 <= chunk_size ->
  Forall (fun c => Z.min chunk_size 1 <= PyStr.len c <= chunk_size)
         (chunk_text text chunk_size overlap).
Proof.
  intros Hcs. rewrite chunk_text_reference. unfold reference_chunks.
  apply Forall_forall. intros c Hc. apply in_map_iff in Hc.
  destruct Hc as (k & <- & Hk). apply in_seq in Hk. simpl in Hk.
  pose proof (window_start_below _ _ _ _ (proj2 Hk)) as Hlt.
  rewrite window_length by assumption. lia.
Qed.

Lemma chunk_lengths_bounded_witness :
  Forall (fun c => Z.min 4 1 <= PyStr.len c <= 4)
         (chunk_text "abcdefghij" 4 1).
Proof. apply (chunk_lengths_bounded "abcdefghij" 4 1). lia. Defined.

(** X2.  Whatever the parameters, there are at most as many chunks as the
    text has characters, and there is no chunk only for the empty text. *)
Theorem chunk_count_bounded (text : string) (chunk_size overlap : Z) :
  (List.length (chunk_text text chunk_size overlap) <= String.length text)%nat
  /\ (List.length (chunk_text text chunk_size overlap) = 0%nat <-> text = "").
Proof.
  rewrite chunk_text_length.
  pose proof (advance_pos chunk_size overlap) as Ha.
  split.
  - apply window_count_least; [exact Ha|]. unfold PyStr.len. nia.
  - split.
    + intros H0. destruct text as [|c s]; [reflexivity|].
      rewrite window_count_succ in H0; [discriminate|exact Ha|].
      unfold PyStr.len. simpl String.length. lia.
    + intros ->. apply window_count_zero; [exact Ha|]. reflexivity.
Qed.

(** X3.  When the overlap is not smaller than the chunk size the window
    advances by one character: there is one chunk for every offset of the
    text, the one that starts there. *)
Theorem chunk_text_with_large_overlap (text : string) (chunk_size overlap : Z) :
  chunk_size <= overlap ->
  chunk_text text chunk_size overlap
  = map (fun k => PyStr.slice text (Z.of_nat k) (Z.of_nat k + chunk_size))
        (seq 0 (String.length text)).
Proof.
  intros Hov. rewrite chunk_text_reference.
  unfold reference_chunks, window, window_end, window_start.
  assert (Ha : advance chunk_size overlap = 1) by (unfold advance; lia).
  rewrite Ha. unfold window_count, PyStr.len.
  replace (Z.of_nat (String.length text) + 1 - 1)
    with (Z.of_nat (String.length text)) by lia.
  rewrite Z.div_1_r, Nat2Z.id.
  apply map_ext. intros k. now rewrite Z.mul_1_r.
Qed.

Lemma chunk_text_with_large_overlap_witness :
  chunk_text "abc" 2 5 = ["ab"; "bc"; "c"].
Proof. apply (chunk_text_with_large_overlap "abc" 2 5). lia. Defined.

(** The chunks are the windows, one by one. *)
Lemma chunk_text_nth (text : string) (chunk_size overlap : Z) (k : nat) :
  (k < List.length (chunk_text text chunk_size overlap))%nat ->
  nth k (chunk_text text chunk_size overlap) ""
  = window text chunk_size overlap k.
Proof.
  intros Hk. rewrite chunk_text_length in Hk.
  rewrite chunk_text_reference. unfold reference_chunks.
  rewrite (nth_indep _ "" (window text chunk_size overlap 0%nat))
    by (now rewrite length_map, length_seq).
  rewrite map_nth. now rewrite seq_nth.
Qed.

Lemma substring_shorter_is_prefix (s : string) (n m1 m2 : nat) :
  (m1 <= m2)%nat -> prefix (substring n m1 s) (substring n m2 s) = true.
Proof.
  intros Hle. replace m2 with (m1 + (m2 - m1))%nat by lia.
  rewrite substring_split. apply prefix_app.
Qed.

(** X4.  With [0 <= overlap < chunk_size], what is left of a chunk after its
    first [chunk_size - overlap] characters opens the next chunk; these
    shared characters are [overlap] many, or fewer when the text ends
    first. *)
Theorem consecutive_chunks_overlap (text : string) (chunk_size overlap : Z)
        (k : nat) :
  0 <= overlap ->
  overlap < chunk_size ->
  (S k < List.length (chunk_text text chunk_size overlap))%nat ->
  prefix (PyStr.drop (nth k (chunk_text text chunk_size overlap) "")
                     (chunk_size - overlap))
         (nth (S k) (chunk_text text chunk_size overlap) "")
  = true
  /\ PyStr.len (PyStr.drop (nth k (chunk_text text chunk_size overlap) "")
                           (chunk_size - overlap))
     = Z.min overlap
             (PyStr.len text - window_start chunk_size overlap (S k)).
Proof.
  intros Hov Hlt Hk.
  rewrite (chunk_text_nth text chunk_size overlap k) by lia.
  rewrite (chunk_text_nth text chunk_size overlap (S k)) by exact Hk.
  rewrite chunk_text_length in Hk.
  pose proof (window_start_below _ _ _ _ Hk) as Hs1.
  unfold window, window_end, window_start in *.
  rewrite (advance_exact chunk_size overlap Hlt) in *.
  set (a := chunk_size - overlap) in *.
  assert (Ha : 1 <= a) by (unfold a; lia).
  assert (Hk0 : 0 <= Z.of_nat k * a) by nia.
  assert (Hk1 : Z.of_nat (S k) * a = Z.of_nat k * a + a) by lia.
  rewrite Hk1 in *.
  rewrite !slice_nonneg by lia.
  unfold PyStr.drop, PyStr.adjust.
  destruct (Z.ltb_spec a 0) as [|_]; [lia|].
  unfold PyStr.len in *. rewrite substring_length.
  rewrite substring_substring, substring_length.
  split.
  - rewrite (substring_clamp text _ (Nat.min _ _)).
    rewrite (substring_clamp text (Z.to_nat (Z.of_nat k * a + a))).
    replace (Z.to_nat (Z.of_nat k * a)
             + Z.to_nat (Z.min a (Z.of_nat (Nat.min
                 (Z.to_nat (Z.of_nat k * a + chunk_size - Z.of_nat k * a))
                 (String.length text - Z.to_nat (Z.of_nat k * a))))))%nat
      with (Z.to_nat (Z.of_nat k * a + a)) by lia.
    apply substring_shorter_is_prefix. lia.
  - lia.
Qed.

Lemma consecutive_chunks_overlap_witness :
  prefix (PyStr.drop (nth 0 (chunk_text "abcdefghij" 4 1) "") (4 - 1))
         (nth 1 (chunk_text "abcdefghij" 4 1) "") = true.
Proof.
  exact (proj1 (consecutive_chunks_overlap "abcdefghij" 4 1 0
                  ltac:(lia) ltac:(lia) ltac:(vm_compute; lia))).
Defined.

(** ** The model invocation client: what it sends and what it raises *)

Lemma try_block_return (o : PostOutcome) (last_error : option string)
      (answer : string) :
  try_block o last_error = ExitReturn answer ->
  exists r, o = PostResponse r /\ success_with r answer.
Proof.
  destruct o as [| |msg|r]; unfold try_block; try discriminate.
  destruct (Z.eqb_spec (status_code r) 200) as [H200|H200].
  - destruct (json r) as [d|msg] eqn:Hj; [|discriminate].
    destruct (dict_get "response" (fields d)) as [v|] eqn:Hv; [|discriminate].
    intros H. inversion H; subst. exists r. split; [reflexivity|].
    split; [exact H200|]. exists d. auto.
  - destruct (error_of_response r last_error) as [error_msg le].
    destruct (is_memory_error error_msg); discriminate.
Qed.

Lemma handlers_return (m final : string) (e : TryExit) (answer : string) :
  handlers m final e = StepReturn answer -> e = ExitReturn answer.
Proof.
  destruct e; simpl; try discriminate.
  - now intros [= ->].
  - destruct (negb (m =? final)%string); discriminate.
  - destruct (m =? final)%string; discriminate.
Qed.

Lemma handlers_raise (m final : string) (e : TryExit) (msg : string) :
  handlers m final e = StepRaise msg ->
  msg = CONNECT_ERROR \/ msg = TIMEOUT_ERROR
  \/ exists inner, msg = "Ollama error: " ++ inner.
Proof.
  destruct e as [ans|le| |le|inner]; simpl; try discriminate.
  - intros [= <-]. auto.
  - destruct (negb (m =? final)%string); [discriminate|].
    intros [= <-]. auto.
  - destruct (m =? final)%string; [|discriminate].
    intros H. inversion H. right. right. now exists inner.
Qed.

Section MoreRuns.

Variable final : string.

(** A run over a non-empty list makes at least one attempt. *)
Lemma run_attempts_nonempty m rest last_error attempts exit :
  run final (m :: rest) last_error attempts exit -> attempts <> [].
Proof. intros H. inversion H; discriminate. Qed.

(** A run that returns ends on a response that carries the result. *)
Lemma run_return_last remaining last_error attempts answer :
  run final remaining last_error attempts (LoopReturn answer) ->
  exists before m r,
    attempts = (before ++ [(m, PostResponse r)])%list
    /\ success_with r answer.
Proof.
  remember (LoopReturn answer) as exit eqn:E.
  induction 1 as [le|m rest le o ans Hs|m rest le o msg Hs
                  |m rest le o le' attempts exit Hs Hrun IH];
    try discriminate.
  - inversion E; subst. apply handlers_return in Hs.
    destruct (try_block_return _ _ _ Hs) as (r & -> & Hok).
    now exists [], m, r.
  - destruct (IH E) as (before & m' & r & -> & Hok).
    now exists ((m, o) :: before), m', r.
Qed.

(** What a run raises is one of three messages. *)
Lemma run_raise_kind remaining last_error attempts msg :
  run final remaining last_error attempts (LoopRaise msg) ->
  msg = CONNECT_ERROR \/ msg = TIMEOUT_ERROR
  \/ exists inner, msg = "Ollama error: " ++ inner.
Proof.
  remember (LoopRaise msg) as exit eqn:E.
  induction 1 as [le|m rest le o ans Hs|m rest le o msg' Hs
                  |m rest le o le' attempts exit Hs Hrun IH];
    try discriminate.
  - inversion E; subst. eapply handlers_raise. eassumption.
  - now apply IH.
Qed.

End MoreRuns.

Lemma requested_models_log (prompt : string)
      (attempts : list (string * PostOutcome)) (tail : list Event) :
  (tail = [] \/ exists t, tail = [EvTags t]) ->
  requested_models (map (generate_event prompt) attempts ++ tail)
  = map fst attempts.
Proof.
  intros Htail. rewrite requested_models_app, requested_models_generate.
  destruct Htail as [->|(t & ->)]; simpl; now rewrite app_nil_r.
Qed.

Lemma tags_requests_log (prompt : string)
      (attempts : list (string * PostOutcome)) (tail : list Event) :
  tags_requests (map (generate_event prompt) attempts ++ tail)
  = tags_requests tail.
Proof.
  unfold tags_requests. rewrite filter_app.
  induction attempts as [|x attempts IH]; [reflexivity|exact IH].
Qed.

(** X5.  A call of [query_ollama] asks the requested model first, asks the
    candidates in their order and each position at most once, sends the given
    prompt with every request, and asks at most once for the installed
    models. *)
Theorem query_ollama_requests {T : Transport} (prompt model : string)
        (fallback_models : list string) (w : World T)
        (r : result string) (w' : World T) (log : list Event) :
  query_ollama prompt model fallback_models (w, []) = (r, (w', log)) ->
  hd_error (requested_models log) = Some model
  /\ requested_models log
     = firstn (List.length (requested_models log))
              (models_to_try model fallback_models)
  /\ (List.length (requested_models log)
      <= List.length (models_to_try model fallback_models))%nat
  /\ (List.length (tags_requests log) <= 1)%nat
  /\ Forall (fun e => match e with
                      | EvGenerate _ p _ => p = prompt
                      | EvTags _ => True
                      end) log.
Proof.
  intros Hq.
  destruct (query_ollama_log _ _ _ _ _ _ _ Hq)
    as (attempts & exit & tail & Hrun & -> & Hexit).
  assert (Htail : tail = [] \/ exists t, tail = [EvTags t]).
  { destruct Hexit as [[-> _]|(t & le & -> & _)]; eauto. }
  rewrite (requested_models_log prompt attempts tail Htail).
  rewrite tags_requests_log, length_map.
  pose proof (run_models _ _ _ _ _ Hrun) as Hmodels.
  split; [|split; [exact Hmodels|split; [|split]]].
  - rewrite Hmodels. unfold models_to_try in *. simpl app in *.
    apply run_attempts_nonempty in Hrun.
    destruct attempts; [congruence|reflexivity].
  - rewrite <- (length_map fst attempts), Hmodels.
    rewrite length_firstn. apply Nat.le_min_r.
  - destruct Htail as [->|(t & ->)]; simpl; lia.
  - apply Forall_app. split.
    + apply Forall_forall. intros e He. apply in_map_iff in He.
      now destruct He as (x & <- & _).
    + destruct Htail as [->|(t & ->)]; repeat constructor.
Qed.

Lemma query_ollama_requests_witness :
  requested_models
    [EvGenerate "a" "q" PostTimeout; EvGenerate "b" "q" model_reply]
  = firstn 2 (models_to_try "a" ["b"; "c"]).
Proof.
  exact (proj1 (proj2
    (query_ollama_requests (T := scripted TagsError) "q" "a" ["b"; "c"]
       [PostTimeout; model_reply; model_reply]
       (Ok "An endofunctor with structure.") [model_reply]
       [EvGenerate "a" "q" PostTimeout; EvGenerate "b" "q" model_reply]
       eq_refl))).
Defined.

(** X6.  [query_ollama] returns a text only when the last request it sent
    was answered with status 200 and a body that carries that text under
    ["response"]. *)
Theorem query_ollama_result_origin {T : Transport} (prompt model : string)
        (fallback_models : list string) (w : World T)
        (answer : string) (w' : World T) (log : list Event) :
  query_ollama prompt model fallback_models (w, []) = (Ok answer, (w', log)) ->
  exists before m resp,
    log = (before ++ [EvGenerate m prompt (PostResponse resp)])%list
    /\ success_with resp answer.
Proof.
  intros Hq.
  destruct (query_ollama_run _ _ _ _ _ _ _ Hq)
    as (attempts & exit & w1 & _ & Hrun & Hexit).
  destruct exit as [a|msg|le]; destruct Hexit as (Hr & _ & ->);
    try discriminate Hr.
  inversion Hr; subst a.
  destruct (run_return_last _ _ _ _ _ Hrun) as (before & m & resp & -> & Hok).
  exists (map (generate_event prompt) before), m, resp.
  rewrite map_app. auto.
Qed.

Lemma query_ollama_result_origin_witness :
  exists before m resp,
    [EvGenerate "a" "q" PostTimeout; EvGenerate "b" "q" model_reply]
    = (before ++ [EvGenerate m "q" (PostResponse resp)])%list
    /\ success_with resp "An endofunctor with structure.".
Proof.
  exact (query_ollama_result_origin (T := scripted TagsError) "q" "a" ["b"; "c"]
           [PostTimeout; model_reply; model_reply]
           "An endofunctor with structure." [model_reply]
           [EvGenerate "a" "q" PostTimeout; EvGenerate "b" "q" model_reply]
           eq_refl).
Defined.

(** X7.  Every message [query_ollama] raises is the connection message, the
    timeout message, a model error introduced by "Ollama error: ", or the
    "All models failed" message; and the installed models have been asked
    for exactly in the last case. *)
Theorem query_ollama_raises {T : Transport} (prompt model : string)
        (fallback_models : list string) (w : World T)
        (msg : string) (w' : World T) (log : list Event) :
  query_ollama prompt model fallback_models (w, []) = (Raise msg, (w', log)) ->
  RaisedKind msg
  /\ (tags_requests log <> []
      <-> exists e available, msg = error_suggestion (Some e) available).
Proof.
  intros Hq.
  destruct (query_ollama_run _ _ _ _ _ _ _ Hq)
    as (attempts & exit & w1 & _ & Hrun & Hexit).
  destruct exit as [a|msg'|le]; destruct Hexit as (Hr & _ & ->);
    try discriminate Hr.
  - inversion Hr; subst msg'.
    rewrite <- (app_nil_r (map (generate_event prompt) attempts)).
    rewrite tags_requests_log.
    pose proof (run_raise_kind _ _ _ _ _ Hrun) as Hkind.
    split.
    + destruct Hkind as [->|[->|(inner & ->)]];
        [now apply RaisedConnect|now apply RaisedTimeout
        |now apply RaisedModel with inner].
    + split; [intros H; now contradiction H|].
      intros (e & available & E). exfalso.
      destruct Hkind as [->|[->|(inner & ->)]]; discriminate E.
  - inversion Hr; subst msg.
    destruct (run_exhausted_last _ _ _ _ _ Hrun) as (b & r & e & _ & _ & _ & _ & ->).
    { unfold models_to_try. discriminate. }
    { reflexivity. }
    rewrite tags_requests_log. split.
    + now apply RaisedAllFailed with e (available_of (fst (get_tags T w1))).
    + split; [eauto|]. intros _. discriminate.
Qed.

Lemma query_ollama_raises_witness :
  RaisedKind CONNECT_ERROR.
Proof.
  exact (proj1
    (query_ollama_raises (T := scripted TagsError) "q" "a" ["b"; "c"]
       [PostTimeout; PostConnectionError;
        PostResponse (json_response 200 [("response", "hi")])]
       CONNECT_ERROR
       [PostResponse (json_response 200 [("response", "hi")])]
       [EvGenerate "a" "q" PostTimeout; EvGenerate "b" "q" PostConnectionError]
       eq_refl)).
Defined.

(** ** When all models fail *)

Lemma contains_skip_prefix (c : ascii) (needle pre s : string) :
  PyStr.all_chars (fun x => negb (Ascii.eqb x c)) pre = true ->
  PyStr.contains (String c needle) (pre ++ s) = PyStr.contains (String c needle) s.
Proof.
  induction pre as [|x pre IH]; intros H; [reflexivity|].
  simpl in H. apply andb_true_iff in H. destruct H as [Hx Hpre].
  change (String x pre ++ s) with (String x (pre ++ s)).
  rewrite contains_cons, (IH Hpre). simpl prefix.
  destruct (ascii_dec c x) as [->|]; [|reflexivity].
  now rewrite Ascii.eqb_refl in Hx.
Qed.

Lemma prefix_second_mismatch (c d x : ascii) (needle rest : string) :
  d <> x ->
  prefix (String c (String d needle)) (String c (String x rest)) = false.
Proof.
  intros Hne. simpl. destruct (ascii_dec c c); [|reflexivity].
  destruct (ascii_dec d x); [contradiction|reflexivity].
Qed.

(** The status line in front of an error text has no part in the memory
    test. *)
Lemma status_prefix_irrelevant (n : Z) (v : string) :
  is_memory_error (("Ollama returned status " ++ PyStr.of_Z n) ++ ": " ++ v)
  = is_memory_error v.
Proof.
  pose proof (of_Z_numeral n) as Hn.
  unfold is_memory_error. rewrite !lower_app.
  rewrite (lower_fixed (PyStr.of_Z n))
    by (revert Hn; apply all_chars_impl; intros c Hc;
        apply numeral_char_cases, Hc).
  change (PyStr.lower "Ollama returned status ")
    with "ollama returned status ".
  change (PyStr.lower ": ") with ": ".
  rewrite !append_assoc.
  set (tail := PyStr.of_Z n ++ ": " ++ PyStr.lower v).
  assert (Hu : PyStr.contains "unable to allocate" tail
               = PyStr.contains "unable to allocate" (PyStr.lower v)).
  { unfold tail. rewrite contains_skip_prefix.
    - now rewrite contains_skip_prefix.
    - revert Hn. apply all_chars_impl. intros c Hc.
      apply numeral_char_cases, Hc. }
  assert (Hb : PyStr.contains "buffer" tail
               = PyStr.contains "buffer" (PyStr.lower v)).
  { unfold tail. rewrite contains_skip_prefix.
    - now rewrite contains_skip_prefix.
    - revert Hn. apply all_chars_impl. intros c Hc.
      apply numeral_char_cases, Hc. }
  f_equal.
  - change ("ollama returned status " ++ tail)
      with ("ollama ret"
              ++ String "u" (String "r"
                   ("ned stat" ++ String "u" (String "s" (" " ++ tail))))).
    rewrite contains_skip_prefix by reflexivity.
    rewrite contains_cons, prefix_second_mismatch by discriminate.
    cbn [orb].
    change (String "r" ("ned stat" ++ String "u" (String "s" (" " ++ tail))))
      with ("rned stat" ++ String "u" (String "s" (" " ++ tail))).
    rewrite contains_skip_prefix by reflexivity.
    rewrite contains_cons, prefix_second_mismatch by discriminate.
    cbn [orb].
    change (String "s" (" " ++ tail)) with ("s " ++ tail).
    rewrite contains_skip_prefix by reflexivity. exact Hu.
  - rewrite contains_skip_prefix by reflexivity. exact Hb.
Qed.

(** A response taken for a memory error carries an error text that is
    itself taken for one. *)
Lemma memory_error_text (r : Response) (e : string) :
  is_memory_error (fst (error_of_response r None)) = true ->
  observed_error r = Some e ->
  is_memory_error e = true.
Proof.
  unfold observed_error, error_of_response.
  destruct (json r) as [d|msg].
  - destruct (dict_get "error" (fields d)) as [v|]; cbn [fst snd].
    + intros H [= <-]. now rewrite status_prefix_irrelevant in H.
    + intros H. now rewrite status_line_not_memory in H.
  - cbn [fst snd]. intros H [= <-]. exact H.
Qed.

Lemma is_memory_error_embedded (pre e post : string) :
  is_memory_error e = true -> is_memory_error (pre ++ e ++ post) = true.
Proof.
  rewrite !is_memory_error_spec, !lower_app.
  intros [(b & a & ->)|(b & a & ->)]; [left|right];
    exists (PyStr.lower pre ++ b), (a ++ PyStr.lower post);
    now rewrite !append_assoc.
Qed.

(** X8.  Whenever a call of [ask_question] comes to ask for the installed
    models, which it does only after running through its whole candidate
    list, the five default candidates have been asked in order, the error
    kept from the last response passes the memory test, and the answer is the
    memory checklist around the "All models failed" message, with empty
    sources; the generic checklist is never shown then. *)
Theorem models_exhausted_shows_memory_checklist
        {T : Transport} (E : Engine) (question : string) (st : Store)
        (w w' : World T) (log : list Event) (reply : http Answer)
        (tags : TagsOutcome) :
  ask_question E question st (w, []) = (reply, (w', log)) ->
  In (EvTags tags) log ->
  exists (e : string) (available : list string),
    requested_models log
    = ["llama3.2:1b"; "llama3.2"; "llama3:1b"; "tinyllama"; "phi"]
    /\ is_memory_error e = true
    /\ available
       = match tags with
         | TagsResponse 200 (Ok {| models := Some entries |}) =>
             map (fun entry => match entry with
                               | Some name => name
                               | None => ""
                               end) entries
         | _ => []
         end
    /\ reply
       = Http200
           {| answer := "⚠️ Memory Error: " ++
("All models failed. Last error: " ++ e ++ "

Try:
1. Restart Ollama: Close and run 'ollama serve' again
2. Free up RAM: Close other applications
" ++ match available with
     | [] => "3. Install a smaller model: 'ollama pull tinyllama'
"
     | _ :: _ =>
         "3. Available models: " ++ String.concat ", " (firstn 5 available) ++ "
"
     end) ++ "

Quick fixes:
1. Restart Ollama: Close terminal running 'ollama serve', then run it again
2. Free up RAM: Close other applications
3. Try a smaller model: Run 'ollama pull tinyllama' then restart
4. Check available models: Visit http://localhost:8000/models";
              sources := [] |}.
Proof.
  intros Hask Hin.
  assert (Hgen : forall prompt attempts,
             ~ In (EvTags tags) (map (generate_event prompt) attempts)).
  { intros prompt attempts H. apply in_map_iff in H.
    destruct H as ([m o] & H & _). discriminate H. }
  destruct (query E st question 3) as [results|exc] eqn:Hq.
  2: { unfold ask_question in Hask. rewrite Hq in Hask. unfold ret in Hask.
       inversion Hask; subst. destruct Hin. }
  destruct (retrieved results) as [|c0 rest] eqn:Hret.
  { rewrite (ask_question_nothing_retrieved E question st results (w, []) Hq Hret)
      in Hask.
    inversion Hask; subst. destruct Hin. }
  assert (Hne : retrieved results <> []) by (rewrite Hret; discriminate).
  rewrite (ask_question_retrieved E question st results (w, []) Hq Hne) in Hask.
  set (prompt := build_prompt
                   (PyStr.join (PyStr.nl ++ PyStr.nl) (retrieved results))
                   question) in *.
  destruct (query_ollama_default prompt (w, [])) as [r [w2 log2]] eqn:Hm.
  cbn [fst snd] in Hask. inversion Hask; subst w2 log2. clear Hask.
  unfold query_ollama_default in Hm.
  destruct (query_ollama_run _ _ _ _ _ _ _ Hm)
    as (attempts & exit & w1 & _ & Hrun & Hexit).
  destruct exit as [ans|msg|last_error].
  - destruct Hexit as (_ & _ & ->). now apply Hgen in Hin.
  - destruct Hexit as (_ & _ & ->). now apply Hgen in Hin.
  - destruct Hexit as (-> & _ & ->).
    apply in_app_or in Hin. destruct Hin as [Hin|[Hin|[]]].
    { now apply Hgen in Hin. }
    injection Hin as Htags.
    destruct (run_exhausted_last _ _ _ _ _ Hrun)
      as (b & resp & e & _ & _ & Hmem & Hobs & ->).
    { discriminate. }
    { reflexivity. }
    pose proof (memory_error_text resp e Hmem Hobs) as He.
    exists e, (available_of tags).
    split.
    { rewrite requested_models_app, requested_models_generate.
      rewrite (run_exhausted_models _ _ _ _ _ Hrun). reflexivity. }
    split; [exact He|].
    split; [apply available_of_cases|].
    rewrite Htags. unfold error_answer.
    assert (Hall : is_memory_error
                     (error_suggestion (Some e) (available_of tags)) = true).
    { unfold error_suggestion, str_of_last_error.
      now apply is_memory_error_embedded. }
    rewrite Hall. reflexivity.
Qed.

Lemma models_exhausted_shows_memory_checklist_witness :
  exists (e : string) (available : list string),
    requested_models
      (map (fun m =>
              EvGenerate m
                (build_prompt
                   "A monad is a monoid in the category of endofunctors."
                   "What is a monad?")
                memory_failure)
           (models_to_try DEFAULT_MODEL FALLBACK_MODELS)
         ++ [EvTags TagsError])
    = ["llama3.2:1b"; "llama3.2"; "llama3:1b"; "tinyllama"; "phi"]
    /\ is_memory_error e = true
    /\ available = [].
Proof.
  destruct (models_exhausted_shows_memory_checklist
              (T := scripted TagsError) list_engine "What is a monad?"
              notes_store (repeat memory_failure 5) _ _ _ TagsError
              eq_refl ltac:(vm_compute; tauto))
    as (e & available & Hreq & He & Hav & _).
  exists e, available. repeat split; assumption.
Defined.

(** ** Ingestion: blank texts, what is offered, ids across files *)

Lemma all_chars_app (p : ascii -> bool) (s1 s2 : string) :
  PyStr.all_chars p (s1 ++ s2) = PyStr.all_chars p s1 && PyStr.all_chars p s2.
Proof.
  induction s1 as [|c s1 IH]; simpl; [reflexivity|].
  now rewrite IH, andb_assoc.
Qed.

Lemma all_chars_rev (p : ascii -> bool) (s : string) :
  PyStr.all_chars p (PyStr.rev s) = PyStr.all_chars p s.
Proof.
  induction s as [|c s IH]; simpl; [reflexivity|].
  rewrite all_chars_app, IH. simpl. rewrite andb_true_r. apply andb_comm.
Qed.

(** Stripping on the left leaves nothing exactly of a blank string, and
    never makes a string with a visible character blank. *)
Lemma lstrip_blank (s : string) :
  PyStr.all_chars PyStr.isspace (PyStr.lstrip s)
  = PyStr.all_chars PyStr.isspace s
  /\ PyStr.truthy (PyStr.lstrip s) = negb (PyStr.all_chars PyStr.isspace s).
Proof.
  induction s as [|c s [IH1 IH2]]; simpl; [auto|].
  destruct (PyStr.isspace c) eqn:Hc; simpl; [auto|].
  now rewrite Hc.
Qed.

Lemma truthy_rev (s : string) : PyStr.truthy (PyStr.rev s) = PyStr.truthy s.
Proof.
  destruct s as [|c s]; simpl; [reflexivity|].
  now destruct (PyStr.rev s).
Qed.

(** [text.strip()] is empty exactly for a text of whitespace only. *)
Lemma strip_truthy (s : string) :
  PyStr.truthy (PyStr.strip s) = negb (PyStr.all_chars PyStr.isspace s).
Proof.
  unfold PyStr.strip. rewrite truthy_rev.
  rewrite (proj2 (lstrip_blank _)), all_chars_rev.
  now rewrite (proj1 (lstrip_blank s)).
Qed.

Lemma chunk_text_nonempty (text : string) (chunk_size overlap : Z) :
  text <> "" -> chunk_text text chunk_size overlap <> [].
Proof.
  intros Hne Hnil. apply Hne. apply (f_equal (@List.length string)) in Hnil.
  rewrite chunk_text_length in Hnil. simpl in Hnil.
  destruct text as [|c s]; [reflexivity|].
  rewrite window_count_succ in Hnil; [discriminate|apply advance_pos|].
  unfold PyStr.len. simpl String.length. lia.
Qed.

Lemma upload_blank_text (E : Engine) (filename text : string) (st : Store) :
  PyStr.all_chars PyStr.isspace text = true ->
  upload_document E filename (Ok text) st
  = (HTTPException 400 "No text found in PDF", st).
Proof.
  intros Hblank. unfold upload_document.
  now rewrite strip_truthy, Hblank.
Qed.

(** The "no text" refusal is given to blank texts only. *)
Lemma upload_no_text_only_blank (E : Engine) (filename text : string)
      (st : Store) :
  fst (upload_document E filename (Ok text) st)
  = HTTPException 400 "No text found in PDF" ->
  PyStr.all_chars PyStr.isspace text = true.
Proof.
  destruct (PyStr.all_chars PyStr.isspace text) eqn:Hblank; [reflexivity|].
  unfold upload_document. rewrite strip_truthy, Hblank. simpl negb.
  cbv iota.
  destruct (chunk_text text default_chunk_size default_overlap)
    as [|c chunks]; [discriminate|].
  destruct (add E st (c :: chunks) _ _) as [[u|msg] st'];
    simpl; discriminate.
Qed.

(** X9.  A text of whitespace only (the empty text too) is refused with
    status 400 and "No text found in PDF", and the store is left as it was;
    a text with a visible character is never refused that way. *)
Theorem upload_blank_text_refused (E : Engine) (filename text : string)
        (st : Store) :
  fst (upload_document E filename (Ok text) st)
  = HTTPException 400 "No text found in PDF"
  <-> PyStr.all_chars PyStr.isspace text = true
      /\ snd (upload_document E filename (Ok text) st) = st.
Proof.
  split.
  - intros H. apply upload_no_text_only_blank in H.
    now rewrite upload_blank_text.
  - intros [Hblank _]. now rewrite upload_blank_text.
Qed.

Lemma batch_of_maps {A : Type} (doc id : A -> string) (meta : A -> Metadata)
      (l : list A) :
  batch (map doc l) (map id l) (map meta l)
  = map (fun x => {| chunk_id := id x;
                     chunk_document := doc x;
                     chunk_metadata := meta x |}) l.
Proof.
  unfold batch. induction l as [|x l IH]; simpl; [reflexivity|].
  now rewrite IH.
Qed.

(** X10.  For a text with a visible character the chunker gives at least one
    chunk, so the second refusal of the route is never given: the [k]-th
    record offered to the engine is the [k]-th window of the text under the
    id [filename_k] with metadata [{source: filename, chunk: k}], there are
    [ceil(len(text) / 800)] of them, and the reply is the engine's failure
    with status 500 or the success with that count. *)
Theorem upload_text_offers_windows (E : Engine) (filename text : string)
        (st : Store) :
  PyStr.all_chars PyStr.isspace text = false ->
  (1 <= window_count (PyStr.len text) 800)%nat
  /\ chunk_text text default_chunk_size default_overlap
     = map (window text default_chunk_size default_overlap)
           (seq 0 (window_count (PyStr.len text) 800))
  /\ batch (chunk_text text default_chunk_size default_overlap)
           (map (chunk_id_of filename)
                (seq 0 (window_count (PyStr.len text) 800)))
           (map (chunk_metadata_of filename)
                (seq 0 (window_count (PyStr.len text) 800)))
     = map (fun k =>
              {| chunk_id := chunk_id_of filename k;
                 chunk_document :=
                   window text default_chunk_size default_overlap k;
                 chunk_metadata := chunk_metadata_of filename k |})
           (seq 0 (window_count (PyStr.len text) 800))
  /\ upload_document E filename (Ok text) st
     = (match fst (add E st
                       (chunk_text text default_chunk_size default_overlap)
                       (map (chunk_id_of filename)
                            (seq 0 (window_count (PyStr.len text) 800)))
                       (map (chunk_metadata_of filename)
                            (seq 0 (window_count (PyStr.len text) 800)))) with
        | Raise msg => HTTPException 500 msg
        | Ok _ =>
            Http200
              {| upload_message := "Document uploaded successfully";
                 upload_filename := filename;
                 upload_chunks :=
                   Z.of_nat (window_count (PyStr.len text) 800) |}
        end,
        snd (add E st
                 (chunk_text text default_chunk_size default_overlap)
                 (map (chunk_id_of filename)
                      (seq 0 (window_count (PyStr.len text) 800)))
                 (map (chunk_metadata_of filename)
                      (seq 0 (window_count (PyStr.len text) 800))))).
Proof.
  intros Hvisible.
  assert (Hne : text <> "") by (intros ->; discriminate Hvisible).
  pose proof (chunk_text_length text default_chunk_size default_overlap)
    as Hlen.
  change (advance default_chunk_size default_overlap) with 800 in Hlen.
  pose proof (chunk_text_nonempty text default_chunk_size default_overlap Hne)
    as Hchunks.
  assert (Hwin : chunk_text text default_chunk_size default_overlap
                 = map (window text default_chunk_size default_overlap)
                       (seq 0 (window_count (PyStr.len text) 800))).
  { rewrite chunk_text_reference. reflexivity. }
  split; [|split; [exact Hwin|split]].
  - rewrite <- Hlen.
    destruct (chunk_text text default_chunk_size default_overlap);
      [congruence|simpl; lia].
  - rewrite Hwin at 1. apply batch_of_maps.
  - unfold upload_document. rewrite strip_truthy, Hvisible. simpl negb.
    cbv iota. rewrite <- Hlen.
    destruct (chunk_text text default_chunk_size default_overlap)
      as [|c chunks]; [congruence|].
    destruct (add E st (c :: chunks) _ _) as [[u|msg] st']; reflexivity.
Qed.

Lemma upload_text_offers_windows_witness :
  upload_document list_engine "b.pdf" (Ok "x") notes_store
  = (Http200 {| upload_message := "Document uploaded successfully";
                upload_filename := "b.pdf";
                upload_chunks := 1 |},
     (notes_store
        ++ [{| chunk_id := "b.pdf_0";
               chunk_document := "x";
               chunk_metadata := chunk_metadata_of "b.pdf" 0 |}])%list).
Proof.
  exact (proj2 (proj2 (proj2
    (upload_text_offers_windows list_engine "b.pdf" "x" notes_store eq_refl)))).
Defined.

Lemma append_underscore_split (s1 s2 d1 d2 : string) :
  PyStr.all_chars (fun c => negb (Ascii.eqb c "_")) d1 = true ->
  PyStr.all_chars (fun c => negb (Ascii.eqb c "_")) d2 = true ->
  s1 ++ "_" ++ d1 = s2 ++ "_" ++ d2 ->
  s1 = s2 /\ d1 = d2.
Proof.
  intros H1 H2. revert s2.
  induction s1 as [|c s1 IH]; intros [|c' s2] H; simpl in H.
  - inversion H. auto.
  - inversion H as [[Hc Hd]]. subst c'. rewrite Hd in H1.
    rewrite all_chars_app in H1. simpl in H1.
    now rewrite andb_false_r in H1.
  - inversion H as [[Hc Hd]]. subst c. rewrite <- Hd in H2.
    rewrite all_chars_app in H2. simpl in H2.
    now rewrite andb_false_r in H2.
  - inversion H as [[Hc Hd]]. subst c'.
    destruct (IH s2 Hd) as [-> ->]. auto.
Qed.

(** X11.  The id of a chunk determines its file and its index: two chunks
    get the same id only when they are the same chunk of the same file, also
    when file names contain underscores or digits. *)
Theorem chunk_id_determines_chunk (filename1 filename2 : string) (i j : nat) :
  chunk_id_of filename1 i = chunk_id_of filename2 j <->
  filename1 = filename2 /\ i = j.
Proof.
  split; [|now intros [-> ->]].
  unfold chunk_id_of. intros H.
  apply append_underscore_split in H.
  - destruct H as [-> H]. split; [reflexivity|now apply of_nat_inj].
  - generalize (of_nat_numeral i). apply all_chars_impl.
    intros c Hc. apply numeral_char_cases, Hc.
  - generalize (of_nat_numeral j). apply all_chars_impl.
    intros c Hc. apply numeral_char_cases, Hc.
Qed.

Lemma all_chars_join_empty (p : ascii -> bool) (parts : list string) :
  PyStr.all_chars p (PyStr.join "" parts)
  = forallb (PyStr.all_chars p) parts.
Proof.
  unfold PyStr.join. induction parts as [|x parts IH]; [reflexivity|].
  rewrite concat_empty_cons, all_chars_app, IH. reflexivity.
Qed.

(** X13.  The pages of a PDF are joined without a separator, a page without
    text counting as empty, so the upload route refuses a readable PDF with
    status 400 and "No text found in PDF" exactly when none of its pages has
    a visible character; the store is then left as it was. *)
Theorem upload_pdf_without_text (E : Engine) (filename : string)
        (pages : list (option string)) (st : Store) :
  fst (upload_pdf E filename (Ok pages) st)
  = HTTPException 400 "No text found in PDF"
  <-> Forall (fun page_text =>
                match page_text with
                | Some t => PyStr.all_chars PyStr.isspace t = true
                | None => True
                end) pages
      /\ snd (upload_pdf E filename (Ok pages) st) = st.
Proof.
  unfold upload_pdf, extract_text_from_pdf.
  set (text := PyStr.join "" _).
  assert (Hblank : PyStr.all_chars PyStr.isspace text = true
                   <-> Forall (fun page_text =>
                                 match page_text with
                                 | Some t =>
                                     PyStr.all_chars PyStr.isspace t = true
                                 | None => True
                                 end) pages).
  { unfold text. rewrite all_chars_join_empty, forallb_forall, Forall_forall.
    split.
    - intros H page_text Hin.
      specialize (H _ (in_map _ _ _ Hin)). now destruct page_text.
    - intros H t Ht. apply in_map_iff in Ht.
      destruct Ht as (page_text & <- & Hin). specialize (H page_text Hin).
      now destruct page_text. }
  split.
  - intros H. apply upload_no_text_only_blank in H.
    split; [now apply Hblank|]. now rewrite upload_blank_text.
  - intros [H _]. apply Hblank in H. now rewrite upload_blank_text.
Qed.

Lemma upload_pdf_without_text_witness :
  fst (upload_pdf list_engine "scan.pdf"
                  (Ok [None; Some (String "160" " "); Some PyStr.nl; None])
                  notes_store)
  = HTTPException 400 "No text found in PDF".
Proof.
  apply (proj2 (upload_pdf_without_text list_engine "scan.pdf"
                  [None; Some (String "160" " "); Some PyStr.nl; None]
                  notes_store)).
  split; [repeat constructor|reflexivity].
Defined.

(** ** Question answering: sources, requests, prompt *)

Lemma source_of_ingested (filename : string) (index : nat) :
  source_of (chunk_metadata_of filename index)
  = source_entry (filename, index).
Proof. reflexivity. Qed.

(** X14.  On a successful answer the sources are read off the retrieved
    metadata, one entry per retrieved entry and in the same order; metadata
    written by the ingestion comes back as the file name and the index it was
    written with, and an entry without the two keys as "Unknown" and 0. *)
Theorem sources_follow_metadata {T : Transport} (E : Engine)
        (question : string) (st : Store) (results : QueryResult)
        (env env' : World T * list Event) (model_answer : string) :
  query E st question 3 = Ok results ->
  retrieved results <> [] ->
  query_ollama_default
    (build_prompt (PyStr.join (PyStr.nl ++ PyStr.nl) (retrieved results))
                  question) env
  = (Ok model_answer, env') ->
  ask_question E question st env
  = (Http200 {| answer := model_answer;
                sources := map source_of (retrieved_metadata results) |},
     env')
  /\ (forall origins : list (string * nat),
         retrieved_metadata results
         = map (fun x => chunk_metadata_of (fst x) (snd x)) origins ->
         map source_of (retrieved_metadata results)
         = map source_entry origins)
  /\ source_of [] = {| source := MStr "Unknown"; chunk := MInt 0 |}.
Proof.
  intros Hq Hr Hm. split; [|split; [|reflexivity]].
  - rewrite (ask_question_retrieved E question st results env Hq Hr).
    rewrite Hm. cbn [fst snd].
    now rewrite sources_of_retrieved_metadata.
  - intros origins ->. rewrite map_map. apply map_ext.
    intros [filename index]. apply source_of_ingested.
Qed.

Lemma sources_follow_metadata_witness :
  ask_question (T := scripted TagsError) list_engine "What is a monad?"
               notes_store ([model_reply], [])
  = (Http200 {| answer := "An endofunctor with structure.";
                sources := [source_entry ("notes.pdf", 0%nat)] |},
     ([],
      [EvGenerate DEFAULT_MODEL
         (build_prompt "A monad is a monoid in the category of endofunctors."
                       "What is a monad?")
         model_reply])).
Proof.
  refine (proj1
            (sources_follow_metadata
               (T := scripted TagsError) list_engine "What is a monad?"
               notes_store _ ([model_reply], []) _ _ eq_refl _ eq_refl)).
  discriminate.
Defined.

Lemma contains_trans (a b c : string) :
  PyStr.contains a b = true -> PyStr.contains b c = true ->
  PyStr.contains a c = true.
Proof.
  rewrite !contains_spec. intros (b1 & b2 & ->) (c1 & c2 & ->).
  exists (c1 ++ b1), (b2 ++ c2). now rewrite !append_assoc.
Qed.

Lemma contains_refl (a : string) : PyStr.contains a a = true.
Proof.
  apply contains_spec. exists "", "". now rewrite append_nil_r.
Qed.

Lemma join_contains (sep c : string) (parts : list string) :
  In c parts -> PyStr.contains c (PyStr.join sep parts) = true.
Proof.
  unfold PyStr.join. induction parts as [|x parts IH]; intros Hin;
    [destruct Hin|].
  apply contains_spec.
  destruct parts as [|y parts'].
  - destruct Hin as [->|[]]. exists "", "". simpl. now rewrite append_nil_r.
  - destruct Hin as [->|Hin].
    + exists "", (sep ++ concat sep (y :: parts')). reflexivity.
    + apply IH, contains_spec in Hin. destruct Hin as (b & a & Hcat).
      exists (x ++ sep ++ b), a.
      change (concat sep (x :: y :: parts'))
        with (x ++ sep ++ concat sep (y :: parts')).
      rewrite Hcat. now rewrite !append_assoc.
Qed.

(** The prompt carries the context and the question as they are. *)
Lemma build_prompt_contains (context question : string) :
  PyStr.contains context (build_prompt context question) = true
  /\ PyStr.contains question (build_prompt context question) = true.
Proof.
  unfold build_prompt. split; apply contains_spec.
  - eexists ("You are a helpful study assistant. Answer the question based on the provided context. "
               ++ PyStr.nl
               ++ "If the answer is not in the context, say so clearly."
               ++ PyStr.nl ++ PyStr.nl ++ "Context:" ++ PyStr.nl), _.
    rewrite !append_assoc. reflexivity.
  - exists ("You are a helpful study assistant. Answer the question based on the provided context. "
               ++ PyStr.nl
               ++ "If the answer is not in the context, say so clearly."
               ++ PyStr.nl ++ PyStr.nl ++ "Context:" ++ PyStr.nl
               ++ context ++ PyStr.nl ++ PyStr.nl ++ "Question: "),
           (PyStr.nl ++ PyStr.nl ++ "Answer:").
    rewrite !append_assoc. reflexivity.
Qed.

(** X15.  Whatever the engine and the server do, one question costs at most
    five generate requests and one request for the installed models; nothing
    is sent when the query fails or retrieves no chunk; otherwise the default
    model is asked first, and every prompt sent holds the question and every
    retrieved chunk word for word. *)
Theorem ask_question_requests {T : Transport} (E : Engine)
        (question : string) (st : Store) (w : World T)
        (resp : http Answer) (w' : World T) (log : list Event) :
  ask_question E question st (w, []) = (resp, (w', log)) ->
  (List.length (requested_models log) <= 5)%nat
  /\ (List.length (tags_requests log) <= 1)%nat
  /\ (log = []
      <-> forall results,
            query E st question 3 = Ok results -> retrieved results = [])
  /\ (log <> [] -> hd_error (requested_models log) = Some DEFAULT_MODEL)
  /\ Forall (fun e =>
               match e with
               | EvGenerate _ p _ =>
                   PyStr.contains question p = true
                   /\ forall results c,
                        query E st question 3 = Ok results ->
                        In c (retrieved results) ->
                        PyStr.contains c p = true
               | EvTags _ => True
               end) log.
Proof.
  intros Hask.
  destruct (query E st question 3) as [results|exc] eqn:Hq.
  - destruct (retrieved results) as [|c0 rest] eqn:Hret.
    + rewrite (ask_question_nothing_retrieved E question st results (w, []) Hq Hret)
        in Hask.
      inversion Hask; subst. simpl.
      repeat split; try lia; try constructor; try congruence.
      all: intros; congruence.
    + assert (Hne : retrieved results <> []) by (rewrite Hret; discriminate).
      rewrite (ask_question_retrieved E question st results (w, []) Hq Hne)
        in Hask.
      set (prompt := build_prompt
                       (PyStr.join (PyStr.nl ++ PyStr.nl) (retrieved results))
                       question) in *.
      destruct (query_ollama_default prompt (w, [])) as [r [w2 log2]] eqn:Hm.
      cbn [fst snd] in Hask. inversion Hask; subst w2 log2. clear Hask.
      unfold query_ollama_default in Hm.
      destruct (query_ollama_log _ _ _ _ _ _ _ Hm)
        as (attempts & exit & tail & Hrun & -> & Hexit).
      assert (Htail : tail = [] \/ exists t, tail = [EvTags t]).
      { destruct Hexit as [[-> _]|(t & le & -> & _)]; eauto. }
      rewrite (requested_models_log prompt attempts tail Htail).
      rewrite tags_requests_log, length_map.
      pose proof (run_models _ _ _ _ _ Hrun) as Hmodels.
      pose proof (run_attempts_nonempty _ _ _ _ _ _ Hrun) as Hatt.
      split; [|split; [|split; [|split]]].
      * rewrite <- (length_map fst attempts), Hmodels, length_firstn.
        apply Nat.le_min_r.
      * destruct Htail as [->|(t & ->)]; simpl; lia.
      * split.
        -- intros Hnil. destruct attempts; [congruence|discriminate Hnil].
        -- intros Hall. specialize (Hall results eq_refl). congruence.
      * intros _. rewrite Hmodels.
        destruct attempts; [congruence|reflexivity].
      * apply Forall_app. split.
        -- apply Forall_forall. intros e He. apply in_map_iff in He.
           destruct He as (x & <- & _). unfold generate_event.
           destruct (build_prompt_contains
                       (PyStr.join (PyStr.nl ++ PyStr.nl) (retrieved results))
                       question) as [Hctx Hquestion].
           split; [exact Hquestion|].
           intros results' c [= <-] Hin.
           apply contains_trans with (2 := Hctx). now apply join_contains.
        -- destruct Htail as [->|(t & ->)]; repeat constructor.
  - unfold ask_question in Hask. rewrite Hq in Hask. unfold ret in Hask.
    inversion Hask; subst. simpl.
    repeat split; try lia; try constructor; try congruence.
    all: intros; discriminate.
Qed.

Lemma ask_question_requests_witness :
  (List.length
     (requested_models
        [EvGenerate DEFAULT_MODEL
           (build_prompt "A monad is a monoid in the category of endofunctors."
                         "What is a monad?")
           model_reply]) <= 5)%nat.
Proof.
  exact (proj1
    (ask_question_requests (T := scripted TagsError) list_engine
       "What is a monad?" notes_store [model_reply]
       (Http200 {| answer := "An endofunctor with structure.";
                   sources := [source_entry ("notes.pdf", 0%nat)] |})
       []
       [EvGenerate DEFAULT_MODEL
          (build_prompt "A monad is a monoid in the category of endofunctors."
                        "What is a monad?")
          model_reply]
       eq_refl)).
Defined.

(** ** Status routes *)

Lemma default_model_is_small (name : string) :
  PyStr.contains DEFAULT_MODEL name = true -> is_small_model name = true.
Proof.
  intros H. apply contains_spec in H. destruct H as (b & a & ->).
  unfold is_small_model. cbn [existsb].
  assert (H1b : PyStr.contains "1b" (PyStr.lower (b ++ DEFAULT_MODEL ++ a))
                = true).
  { apply contains_spec. rewrite !lower_app.
    exists (PyStr.lower b ++ "llama3.2:"), (PyStr.lower a).
    rewrite !append_assoc. reflexivity. }
  rewrite H1b. now rewrite orb_true_r.
Qed.

(** X16.  When [health_check] reports that the default model is available,
    its list of recommended small models is not empty: every installed name
    that contains the default model's name is on it.  The default model is
    reported available exactly when some installed name contains its name,
    and the recommended models are a selection of the installed ones, in
    their order. *)
Theorem health_check_recommends_default (o : GetOutcome)
        (names : list string) (default_model : string)
        (model_available : bool) (recommended : list string) :
  health_check o = Healthy names default_model model_available recommended ->
  default_model = "llama3.2:1b"
  /\ (model_available = true
      <-> exists name, In name names
                       /\ PyStr.contains "llama3.2:1b" name = true)
  /\ (forall name,
         In name names -> PyStr.contains "llama3.2:1b" name = true ->
         In name recommended)
  /\ (model_available = true -> recommended <> [])
  /\ exists keep : string -> bool, recommended = filter keep names.
Proof.
  destruct o as [|msg|status body]; simpl; try discriminate.
  destruct (status =? 200); [|discriminate].
  destruct body as [ms|msg]; [|discriminate].
  intros H. inversion H; subst. clear H.
  assert (Hin : forall name,
             In name (model_names ms) ->
             PyStr.contains "llama3.2:1b" name = true ->
             In name (filter is_small_model (model_names ms))).
  { intros name Hname Hc. apply filter_In. split; [exact Hname|].
    now apply default_model_is_small. }
  split; [reflexivity|].
  split; [|split; [exact Hin|split; [|now exists is_small_model]]].
  - rewrite existsb_exists. reflexivity.
  - intros Havail. apply existsb_exists in Havail.
    destruct Havail as (name & Hname & Hc).
    specialize (Hin name Hname Hc). intros Hnil. now rewrite Hnil in Hin.
Qed.

Lemma health_check_recommends_default_witness :
  In "llama3.2:1b-instruct" ["llama3.2:1b-instruct"].
Proof.
  exact (proj1 (proj2 (proj2
    (health_check_recommends_default
       (GetResponse 200
          (Ok (Some [{| entry_name := Some "mistral";
                        entry_size := None;
                        entry_modified_at := None |};
                     {| entry_name := Some "llama3.2:1b-instruct";
                        entry_size := Some 1300;
                        entry_modified_at := None |}])))
       ["mistral"; "llama3.2:1b-instruct"] "llama3.2:1b" true
       ["llama3.2:1b-instruct"] eq_refl)))
    "llama3.2:1b-instruct" (or_intror (or_introl eq_refl)) eq_refl).
Defined.

(** X17.  The three readers of the installed models agree on every outcome
    of the request: [health_check] is healthy exactly when [list_models]
    succeeds; then both list the names [get_available_models] returns, in the
    same order, and the count is their number; otherwise
    [get_available_models] returns the empty list. *)
Theorem status_routes_agree (o : GetOutcome) :
  match health_check o, list_models o with
  | Healthy names _ _ _, ListSuccess model_info count =>
      names = available_of (tags_view o)
      /\ map info_name model_info = names
      /\ count = Z.of_nat (List.length names)
  | Unhealthy _ _, ListError _ => available_of (tags_view o) = []
  | _, _ => False
  end.
Proof.
  destruct o as [|msg|status body]; simpl; try reflexivity.
  destruct (status =? 200); simpl; [|reflexivity].
  destruct body as [[l|]|msg]; simpl; try reflexivity; try (now repeat split).
  rewrite !map_map, !length_map. repeat split.
Qed.
